(** * expanded-elm: the README-driven transformation engine of [xelm.ts]

    A shallow embedding of the text-rewriting core of [xelm.ts] and the
    properties its specification states about it.

    Two revisions of [xelm.ts] are in the repository: [src/xelm.ts]
    (markers [@IF]/[@FI], one cache artifact per mode) and the later revision
    that follows the Nix expression in [src/shell.nix] (markers
    [@IF]/[@UNLESS]/[@END], namespace rewriting).  They are embedded side by
    side as the modules [Xelm] and [Shell]; what both revisions share
    verbatim is defined once, before them. *)

From Stdlib Require Import ZArith Lia Bool Ascii String List.
From stdpp Require Import base option list gmap strings.

Local Open Scope Z_scope.
Local Open Scope nat_scope.
Local Open Scope list_scope.

(** ** Text

    A JavaScript string is a sequence of code units; the model keeps the code
    units [0..255], so a text is a [list ascii]. *)

Definition str := list ascii.

Definition lit (s : string) : str := list_ascii_of_string s.
Coercion lit : string >-> str.

Definition TAB : ascii := ascii_of_nat 9.
Definition LF : ascii := ascii_of_nat 10.
Definition VT : ascii := ascii_of_nat 11.
Definition FF : ascii := ascii_of_nat 12.
Definition CR : ascii := ascii_of_nat 13.
Definition SP : ascii := ascii_of_nat 32.
Definition NBSP : ascii := ascii_of_nat 160.

(** The class [\s] of a regular expression, which is also what
    [String.prototype.trim] removes. *)
Definition isSpace (c : ascii) : bool :=
  existsb (Ascii.eqb c) [TAB; LF; VT; FF; CR; SP; NBSP].

(** The code units after which [^] matches under the [m] flag. *)
Definition isLineTerminator (c : ascii) : bool :=
  existsb (Ascii.eqb c) [LF; CR].

Fixpoint startsWith (pat s : str) : bool :=
  match pat, s with
  | [], _ => true
  | _ :: _, [] => false
  | p :: pat', c :: s' => Ascii.eqb p c && startsWith pat' s'
  end.

(** [s.includes(pat)]. *)
Fixpoint includes (pat s : str) : bool :=
  startsWith pat s
  || match s with
     | [] => false
     | _ :: s' => includes pat s'
     end.

(** [s.split(sep)] for a separator of one code unit. *)
Fixpoint split (sep : ascii) (s : str) : list str :=
  match s with
  | [] => [[]]
  | c :: s' =>
      if Ascii.eqb c sep then [] :: split sep s'
      else match split sep s' with
           | [] => [[c]]
           | l :: ls => (c :: l) :: ls
           end
  end.

(** [parts.join(sep)]. *)
Fixpoint join (sep : str) (parts : list str) : str :=
  match parts with
  | [] => []
  | [p] => p
  | p :: ps => p ++ sep ++ join sep ps
  end.

Fixpoint trimStart (s : str) : str :=
  match s with
  | [] => []
  | c :: s' => if isSpace c then trimStart s' else s
  end.

Definition trimEnd (s : str) : str := rev (trimStart (rev s)).

Definition trim (s : str) : str := trimEnd (trimStart s).

(** [s.split(/\s+/)]; [gap] says that the previous code unit was part of a
    separator. *)
Fixpoint splitSpaces (gap : bool) (s : str) : list str :=
  match s with
  | [] => [[]]
  | c :: s' =>
      if isSpace c then
        if gap then splitSpaces true s' else [] :: splitSpaces true s'
      else match splitSpaces false s' with
           | [] => [[c]]
           | l :: ls => (c :: l) :: ls
           end
  end.

(** [s.replace(pat, rep)] for a string pattern and a replacement without
    [$] patterns: the first occurrence only. *)
Fixpoint replaceFirst (pat rep s : str) : str :=
  if startsWith pat s then rep ++ drop (length pat) s
  else match s with
       | [] => []
       | c :: s' => c :: replaceFirst pat rep s'
       end.

(** [s.replaceAll(pat, rep)] for a string pattern: the occurrences from left
    to right, without overlap.  [skip] counts the code units of the current
    occurrence that are still to be passed over. *)
Fixpoint replaceAllFrom (pat rep : str) (skip : nat) (s : str) : str :=
  match s with
  | [] => match skip, pat with 0, [] => rep | _, _ => [] end
  | c :: s' =>
      match skip with
      | S k => replaceAllFrom pat rep k s'
      | 0 =>
          if startsWith pat s then
            match pat with
            | [] => rep ++ c :: replaceAllFrom pat rep 0 s'
            | _ :: pat' => rep ++ replaceAllFrom pat rep (length pat') s'
            end
          else c :: replaceAllFrom pat rep 0 s'
      end
  end.

Definition replaceAll (pat rep s : str) : str := replaceAllFrom pat rep 0 s.

(** [s.replace(/^\s+/gm, f)]: every maximal run of white space that starts
    at the beginning of a line is replaced by [f] of it.  [bol] says that the
    position is the beginning of a line; [run] is the run matched so far. *)
Fixpoint replaceIndent (f : str -> str) (bol : bool) (run : str) (s : str)
  : str :=
  let flush := match run with [] => [] | _ => f run end in
  match s with
  | [] => flush
  | c :: s' =>
      if isSpace c then
        if bol || negb (bool_decide (run = [])) then
          replaceIndent f bol (run ++ [c]) s'
        else c :: replaceIndent f (isLineTerminator c) [] s'
      else flush ++ c :: replaceIndent f false [] s'
  end.

(** [s.slice(start, end)]: a negative index counts from the end, and both
    are clamped to the text. *)
Definition slice (s : str) (start end_ : Z) : str :=
  let len := Z.of_nat (length s) in
  let from := if (start <? 0)%Z then Z.max (len + start) 0 else Z.min start len in
  let to := if (end_ <? 0)%Z then Z.max (len + end_) 0 else Z.min end_ len in
  take (Z.to_nat (to - from)) (drop (Z.to_nat from) s).

(** [s.replace(/^\s{2}/gm, tab)]: two white-space code units at the beginning
    of a line are replaced by a tab, and the scan goes on behind them. *)
Fixpoint replaceTwoSpaces (bol : bool) (s : str) : str :=
  match s with
  | c1 :: ((c2 :: s'') as s') =>
      if bol && isSpace c1 && isSpace c2
      then TAB :: replaceTwoSpaces (isLineTerminator c2) s''
      else c1 :: replaceTwoSpaces (isLineTerminator c1) s'
  | _ => s
  end.

(** ** Regular expressions

    [xelm.ts] only builds patterns out of escaped literal texts, [|] and one
    pair of parentheses.  The pattern syntax is embedded for that fragment:
    a pattern source is read into pattern characters and syntax characters,
    and a disjunction of literal alternatives is accepted; any other use of a
    syntax character is reported as [None]. *)

Definition isSyntaxCharacter (c : ascii) : bool :=
  existsb (Ascii.eqb c) (lit "^$\.*+?()[]{}|").

(** Letters, digits and [_]: after a backslash they start a class, control
    or back-reference escape instead of standing for themselves. *)
Definition isWordCharacter (c : ascii) : bool :=
  let n := nat_of_ascii c in
  ((48 <=? n) && (n <=? 57)) || ((65 <=? n) && (n <=? 90))
  || ((97 <=? n) && (n <=? 122)) || (n =? 95).

Inductive PatternToken :=
  | PatternCharacter (c : ascii)
  | SyntaxCharacter (c : ascii).

Fixpoint lexPattern (escaped : bool) (source : str)
  : option (list PatternToken) :=
  match source with
  | [] => if escaped then None else Some []
  | c :: source' =>
      if escaped then
        if isWordCharacter c then None
        else cons (PatternCharacter c) <$> lexPattern false source'
      else if Ascii.eqb c "\" then lexPattern true source'
      else cons (if isSyntaxCharacter c then SyntaxCharacter c
                 else PatternCharacter c) <$> lexPattern false source'
  end.

Fixpoint parseAlternatives (tokens : list PatternToken) : option (list str) :=
  match tokens with
  | [] => Some [[]]
  | PatternCharacter c :: tokens' =>
      match parseAlternatives tokens' with
      | Some (a :: alts) => Some ((c :: a) :: alts)
      | _ => None
      end
  | SyntaxCharacter c :: tokens' =>
      if Ascii.eqb c "|" then cons [] <$> parseAlternatives tokens' else None
  end.

Definition parseDisjunction (tokens : list PatternToken) : option (list str) :=
  match tokens with
  | SyntaxCharacter "(" :: tokens' =>
      match rev tokens' with
      | SyntaxCharacter ")" :: body => parseAlternatives (rev body)
      | _ => None
      end
  | _ => parseAlternatives tokens
  end.

(** A compiled pattern with the flags [gm]: its literal alternatives, in
    the order of the source. *)
Record RegExp := { alternatives : list str }.

Definition parseRegExp (source : str) : option RegExp :=
  alts ← (lexPattern false source ≫= parseDisjunction);
  Some {| alternatives := alts |}.

(** [s.replaceAll(regexp, f)] with a replacer function of the matched text.
    At each position the first alternative that matches is taken; after an
    empty match the scan advances by one code unit, and the end of the text
    is a position too.  [skip] counts the code units of the current match
    that are still to be passed over. *)
Fixpoint regexReplaceFrom (alts : list str) (f : str -> str) (skip : nat)
    (s : str) : str :=
  match skip with
  | S k => match s with
           | [] => []
           | _ :: s' => regexReplaceFrom alts f k s'
           end
  | 0 =>
      match find (fun a => startsWith a s) alts with
      | Some m =>
          f m ++ match m, s with
                 | _ :: m', _ :: s' => regexReplaceFrom alts f (length m') s'
                 | [], c :: s' => c :: regexReplaceFrom alts f 0 s'
                 | _, [] => []
                 end
      | None => match s with
                | [] => []
                | c :: s' => c :: regexReplaceFrom alts f 0 s'
                end
      end
  end.

Definition regexReplaceAll (regexp : RegExp) (f : str -> str) (s : str) : str :=
  regexReplaceFrom (alternatives regexp) f 0 s.

(** ** Errors

    One constructor for each place where [xelm.ts] or a library function it
    calls throws. *)
Inductive Error :=
  | UnexpectedCodeBlock (lang : option str)
  | UnmatchedPattern (find : str)
  | ManifestNotFound (filePath : str)
  | UndefinedElmVersion
  | NoAuthorName
  | NoProjectName
  | JsonSyntaxError
  | PathNotString
  | FileNotFound (filePath : str)
  | RegExpSyntaxError (source : str).

Inductive result (A : Type) :=
  | Ok (a : A)
  | Err (e : Error).
Arguments Ok {A} a.
Arguments Err {A} e.

#[global] Instance result_ret : MRet result := fun A a => Ok a.
#[global] Instance result_bind : MBind result := fun A B f m =>
  match m with
  | Ok a => f a
  | Err e => Err e
  end.
#[global] Instance result_fmap : FMap result := fun A B f m =>
  match m with
  | Ok a => Ok (f a)
  | Err e => Err e
  end.

Definition newRegExp (source : str) : result RegExp :=
  match parseRegExp source with
  | Some regexp => Ok regexp
  | None => Err (RegExpSyntaxError source)
  end.

(** The two error messages of the documentation scan. *)
Definition isMalformedDoc (e : Error) : bool :=
  match e with
  | UnexpectedCodeBlock _ | UnmatchedPattern _ => true
  | _ => false
  end.

(** ** Data *)

Record Transform := { find : str; replace : str }.

#[global] Instance Transform_eq_dec : EqDecision Transform.
Proof. solve_decision. Defined.

(** The block tokens of [marked.lexer] that the scan tells apart, and the
    inline tokens of a paragraph. *)
Inductive Inline :=
  | link (href : str)
  | inline_other.

Inductive Token :=
  | heading (depth : nat)
  | paragraph (tokens : list Inline)
  | code (lang : option str) (text : str)
  | token_other.

Record PostConfig := {
  module : bool;
  debug : bool;
  test : bool;
  transformations : list Transform
}.

(** The parsed [elm.json]; an absent field is [None].  The entries of
    [direct] and [indirect] are in the order of [Object.entries]. *)
Record Dependencies := {
  direct : option (list (str * str));
  indirect : option (list (str * str))
}.

Record ElmJson := {
  name : option str;
  elm_version : option str;
  dependencies : option Dependencies;
  test_dependencies : option Dependencies
}.

(** ** Files

    The file system is a finite map from paths to files, each with its text
    and its modification time in milliseconds ([None] when [Deno.stat] has
    none).  Directories and permissions are not part of the model, so a
    read fails only on a missing file and a write always succeeds. *)

Record File := { content : str; mtime : option Z }.

Abbreviation FS := (gmap str File).

Definition exists_ (fs : FS) (filePath : str) : bool :=
  bool_decide (is_Some (fs !! filePath)).

Definition readTextFile (fs : FS) (filePath : str) : result str :=
  match fs !! filePath with
  | Some f => Ok (content f)
  | None => Err (FileNotFound filePath)
  end.

(** [now] is the clock reading at the time of the write. *)
Definition writeTextFile (fs : FS) (now : Z) (filePath data : str) : FS :=
  <[filePath := {| content := data; mtime := Some now |}]> fs.

(** [path.join]: the parts that are not empty, separated by [/].  The
    library then resolves [.], [..] and repeated separators; the model keeps
    the joined path as it is. *)
Definition path_join (parts : list str) : str :=
  match filter (fun p => p <> []) parts with
  | [] => lit "."
  | parts' => join "/" parts'
  end.

Definition ELM_JSON : str := "elm.json".
Definition README_MD : str := "README.md".
Definition ELM_STUFF : str := "elm-stuff".
Definition ANCHOR : str := "#98f5c378-5809-4e35-904e-d1c5c3a8154e".

(** What [xelm.ts] takes from its libraries and from the process: the
    Markdown lexer, the JSON functions at the two types they are used at,
    the working directory and the default [ELM_HOME]. *)
Class Externals := {
  marked_lexer : str -> list Token;
  JSON_parse_Transforms : str -> result (list Transform);
  JSON_stringify : list Transform -> str;
  JSON_parse_ElmJson : str -> result ElmJson;
  Deno_cwd : str;
  DEFAULT_ELM_HOME : str
}.

(** A modification time, or the fallback [Number.POSITIVE_INFINITY]. *)
Inductive Time :=
  | Finite (ms : Z)
  | Infinity.

(** [a > b] on numbers. *)
Definition Time_gt (a b : Time) : bool :=
  match a, b with
  | Finite x, Finite y => (y <? x)%Z
  | Infinity, Finite _ => true
  | _, Infinity => false
  end.

(** ** The transformation cache: staleness

    [getModificationTime], [isModifiedAfter] and [needsCacheRefresh] are the
    same in both revisions.  [Deno.stat] of a path that is not in the file
    system raises [NotFound], the only exception the file system of the model
    can raise. *)

Definition getModificationTime (fs : FS) (filePath : str) (fallback : Time)
  : Time :=
  match fs !! filePath with
  | Some f => match mtime f with
              | Some ms => Finite ms
              | None => fallback
              end
  | None => fallback
  end.

Definition isModifiedAfter (fs : FS) (src dest : str) : bool :=
  let srcTime := getModificationTime fs src Infinity in
  let destTime := getModificationTime fs dest (Finite 0) in
  Time_gt srcTime destTime.

Definition needsCacheRefresh (fs : FS) (projectRoot transformationsFile : str)
  : bool :=
  if negb (exists_ fs transformationsFile) then true
  else
    let dependenciesChanged :=
      isModifiedAfter fs (path_join [projectRoot; ELM_JSON]) transformationsFile in
    let readmeChanged :=
      isModifiedAfter fs (path_join [projectRoot; README_MD]) transformationsFile in
    dependenciesChanged || readmeChanged.

(** [for (const t of ts) acc.push(t)]. *)
Definition pushAll {A} (acc ts : list A) : list A :=
  fold_left (fun acc t => acc ++ [t]) ts acc.

(** The options of [xelm] that the model reads; an absent option is
    [None]. *)
Record ExtraOptions := {
  opt_projectRoot : option str;
  opt_elmHome : option str;
  opt_debug : option bool;
  opt_transformations : option (list Transform);
  opt_test : option bool;
  opt_refresh : option bool
}.

(** The arguments of a call of [elm]. *)
Record ElmCall := {
  call_inputs : list str;
  call_output : str;
  call_options : ExtraOptions
}.

(** An object used as a map from texts to texts.  An assignment stores an
    own property under any key: Deno removes the accessor [__proto__] from
    [Object.prototype], so that key is stored like every other.  A read gives
    the own property, or else the member of [Object.prototype] of that name,
    a native function. *)
Inductive Value :=
  | VString (s : str)
  | VFunction (name : str).

Definition PROTO : str := "__proto__".

(** The members of [Object.prototype], each with the name of the function it
    holds. *)
Definition OBJECT_PROTOTYPE : list (str * str) :=
  [(lit "constructor", lit "Object");
   (lit "__defineGetter__", lit "__defineGetter__");
   (lit "__defineSetter__", lit "__defineSetter__");
   (lit "hasOwnProperty", lit "hasOwnProperty");
   (lit "__lookupGetter__", lit "__lookupGetter__");
   (lit "__lookupSetter__", lit "__lookupSetter__");
   (lit "isPrototypeOf", lit "isPrototypeOf");
   (lit "propertyIsEnumerable", lit "propertyIsEnumerable");
   (lit "toString", lit "toString");
   (lit "valueOf", lit "valueOf");
   (lit "toLocaleString", lit "toLocaleString")].

Definition obj_set (map : gmap str str) (key value : str) : gmap str str :=
  <[key := value]> map.

Definition obj_get (map : gmap str str) (key : str) : option Value :=
  match map !! key with
  | Some s => Some (VString s)
  | None =>
      (fun member => VFunction member.2)
        <$> List.find (fun member => bool_decide (member.1 = key)) OBJECT_PROTOTYPE
  end.

(** [value ?? fallback], converted to a string as [replaceAll] does with
    the result of its replacer. *)
Definition orElse (value : option Value) (fallback : str) : str :=
  match value with
  | Some (VString s) => s
  | Some (VFunction name) =>
      lit "function " ++ name ++ lit "() { [native code] }"
  | None => fallback
  end.

(** The replacement string of the namespace rewrite.  None of [$a], [$p] and
    the final [$] is a replacement pattern, so every match is replaced by
    this text as it is. *)
Definition NAMESPACE_PLACEHOLDER : str := "$author$project$".

(** [x === s] for a value that may be [undefined]. *)
Definition is_text (x : option str) (s : string) : bool :=
  bool_decide (x = Some (lit s)).

(** The inner loop of the documentation scan: some item of the paragraph is
    a link to the anchor. *)
Definition hasAnchor (tokens : list Inline) : bool :=
  existsb (fun item => match item with
                       | link href => bool_decide (href = ANCHOR)
                       | inline_other => false
                       end) tokens.

(** The check after the loop of the documentation scan. *)
Definition finish (find : option str) (transforms : list Transform)
  : result (list Transform) :=
  match find with
  | Some f => Err (UnmatchedPattern f)
  | None => Ok transforms
  end.

(** ** The revision of [xelm.ts] in [src/shell.nix] *)

Module Shell.
Section WithExternals.
Context `{Externals}.

(** The class [[.*+?^${}()|[\]\\\/]] of [escapeRegExp]. *)
Definition specialCharacter (c : ascii) : bool :=
  existsb (Ascii.eqb c) (lit ".*+?^${}()|[]\/").

Definition escapeRegExp (text : str) : str :=
  flat_map (fun c => if specialCharacter c then ["\"%char; c] else [c]) text.

Definition spacesToTabs (content spaces : str) : str :=
  replaceIndent (fun match_ => replaceAll spaces [TAB] match_) true [] content.

Inductive Flags := flag_debug | flag_test.

Record Scope := { flag : Flags; cond : bool }.

(** [vars.includes(flag)] together with the cast of [flag]. *)
Definition vars_includes (flag : option str) : option Flags :=
  match flag with
  | Some s => if bool_decide (s = lit "debug") then Some flag_debug
              else if bool_decide (s = lit "test") then Some flag_test
              else None
  | None => None
  end.

Definition config_get (config : PostConfig) (flag : Flags) : bool :=
  match flag with
  | flag_debug => debug config
  | flag_test => test config
  end.

(** What the marker branch of the loop body does with the stack, or [None]
    when the line falls through to the content branch. *)
Definition marker (stack : list Scope) (line : str) : option (list Scope) :=
  let parts := splitSpaces false (trim line) in
  let comment := parts !! 0 in
  let cond := parts !! 1 in
  let flag := parts !! 2 in
  if is_text comment "//" then
    match (if is_text cond "@IF" then vars_includes flag else None) with
    | Some f => Some (stack ++ [{| flag := f; cond := true |}])
    | None =>
        match (if is_text cond "@UNLESS" then vars_includes flag else None) with
        | Some f => Some (stack ++ [{| flag := f; cond := false |}])
        | None => if is_text cond "@END" then Some (removelast stack) else None
        end
    end
  else None.

(** One iteration of the loop [lines:] on the state [(stack, lines)]. *)
Definition preprocess_line (config : PostConfig)
    (state : list Scope * list str) (line : str) : list Scope * list str :=
  let '(stack, lines) := state in
  match marker stack line with
  | Some stack' => (stack', lines)
  | None =>
      if forallb (fun s => Bool.eqb (cond s) (config_get config (flag s))) stack
      then (stack,
            lines ++ [if length stack =? 0 then line
                      else replaceFirst (repeat TAB (length stack)) [] line])
      else (stack, lines)
  end.

Definition preprocess (content : str) (config : PostConfig) : str :=
  let '(_, lines) :=
    fold_left (preprocess_line config) (split LF content) ([], []) in
  join [LF] lines.

(** One iteration of the loop of [transform] on [(map, patterns)]. *)
Definition transform_rule (config : PostConfig)
    (state : gmap str str * list str) (t : Transform)
  : gmap str str * list str :=
  let '(map, patterns) := state in
  let fmt := spacesToTabs (find t) "  " in
  let map := obj_set map fmt (preprocess (spacesToTabs (replace t) "  ") config) in
  let txt := escapeRegExp fmt in
  (map, patterns ++ [txt]).

Definition transform (content : str) (config : PostConfig) : result str :=
  let '(map, patterns) :=
    fold_left (transform_rule config) (transformations config) (∅, []) in
  regexp ← newRegExp (lit "(" ++ join "|" patterns ++ lit ")");
  Ok (regexReplaceAll regexp
        (fun substring => orElse (obj_get map substring) substring) content).

(** The first step of [postprocess]. *)
Definition postprocess_transform (content : str) (config : PostConfig)
  : result str :=
  if 0 <? length (transformations config) then transform content config
  else Ok content.

Definition MODULE_PRE : str :=
  lit "(function(scope){" ++ [LF] ++ lit "'use strict';".

Definition MODULE_POS : str := lit "(this));".

Definition modularize (content : str) : str :=
  let pre := Z.of_nat (length MODULE_PRE) in
  let pos := Z.of_nat (length MODULE_POS) in
  lit "const scope = {};" ++ [LF] ++ lit "(function(scope){"
  ++ slice content pre (Z.of_nat (length content) - pos)
  ++ lit "(scope));" ++ [LF] ++ lit "export default scope.Elm;".

Definition escapeVar (name : str) : str :=
  map (fun c => if Ascii.eqb c "-" then "_"%char else c) name.

Definition getNamespace (name : str) : result RegExp :=
  let parts := split "/" (escapeVar name) in
  match parts !! 0 with
  | None => Err NoAuthorName
  | Some author =>
      match parts !! 1 with
      | None => Err NoProjectName
      | Some project =>
          let authorPart := escapeRegExp (escapeVar author) in
          let projectPart := escapeRegExp (escapeVar project) in
          newRegExp (lit "\$" ++ authorPart ++ lit "\$" ++ projectPart ++ lit "\$")
      end
  end.

(** [namespace ? getNamespace(namespace) : undefined]; the empty text is
    falsy. *)
Definition namespaceRegExp (namespace : option str) : result (option RegExp) :=
  match namespace with
  | Some (c :: n) => Some <$> getNamespace (c :: n)
  | _ => Ok None
  end.

(** [regExp ? text.replaceAll(regExp, "$author$project$") : text]. *)
Definition rewriteNamespace (regExp : option RegExp) (text : str) : str :=
  match regExp with
  | Some r => regexReplaceAll r (fun _ => NAMESPACE_PLACEHOLDER) text
  | None => text
  end.

(** The loop over the tokens, on the state [(collect, find, transforms)],
    followed by the check after it. *)
Fixpoint scan (regExp : option RegExp) (collect : bool) (find : option str)
    (transforms : list Transform) (tokens : list Token)
  : result (list Transform) :=
  match tokens with
  | [] => finish find transforms
  | token :: rest =>
      let stop := match token with
                  | heading depth => collect && (depth <? 4)
                  | _ => false
                  end in
      if stop then finish find transforms
      else
        let collect :=
          match token with
          | paragraph items => if negb collect && hasAnchor items then true
                               else collect
          | _ => collect
          end in
        match token with
        | code lang text =>
            if collect then
              if negb (bool_decide (lang = Some (lit "js"))) then
                Err (UnexpectedCodeBlock lang)
              else
                let text := rewriteNamespace regExp text in
                match find with
                | Some f =>
                    scan regExp collect None
                      (transforms ++ [{| find := f;
                                         replace := spacesToTabs text "    " |}])
                      rest
                | None =>
                    scan regExp collect (Some (spacesToTabs text "    "))
                      transforms rest
                end
            else scan regExp collect find transforms rest
        | _ => scan regExp collect find transforms rest
        end
  end.

Definition extractReadme (fs : FS) (filePath : str) (namespace : option str)
  : result (list Transform) :=
  if negb (exists_ fs filePath) then Ok []
  else
    regExp ← namespaceRegExp namespace;
    content ← readTextFile fs filePath;
    scan regExp false None [] (marked_lexer content).

Definition extractDependency (fs : FS) (dependency version directory : str)
  : result (list Transform) :=
  let parts := split "/" dependency in
  match parts !! 0, parts !! 1 with
  | Some author, Some name =>
      let markdownFile :=
        path_join [directory; author; name; version; README_MD] in
      extractReadme fs markdownFile None
  | _, _ => Err PathNotString
  end.

Record Manifest := {
  m_name : option str;
  m_version : str;
  m_dependencies : list (str * str)
}.

Definition parseElmJson (fs : FS) (filePath : str) : result Manifest :=
  if negb (exists_ fs filePath) then Err (ManifestNotFound filePath)
  else
    text ← readTextFile fs filePath;
    elmJson ← JSON_parse_ElmJson text;
    match elm_version elmJson with
    | None => Err UndefinedElmVersion
    | Some version =>
        let deps := default {| direct := None; indirect := None |}
                            (dependencies elmJson) in
        Ok {| m_name := name elmJson;
              m_version := version;
              m_dependencies :=
                default [] (direct deps) ++ default [] (indirect deps) |}
    end.

(** The loop of [extract] over the dependencies. *)
Fixpoint extractDependencies (fs : FS) (directory : str)
    (deps : list (str * str)) (transformations : list Transform)
  : result (list Transform) :=
  match deps with
  | [] => Ok transformations
  | (dep, ver) :: deps' =>
      ts ← extractDependency fs dep ver directory;
      extractDependencies fs directory deps' (pushAll transformations ts)
  end.

Definition extract (fs : FS) (projectRoot elmHome : str) (test : bool)
  : result (list Transform) :=
  let elmJsonFile := path_join [projectRoot; ELM_JSON] in
  m ← parseElmJson fs elmJsonFile;
  let readmeFile :=
    if test then path_join [projectRoot; lit ".."; lit ".."; README_MD]
    else path_join [projectRoot; README_MD] in
  name ← (if test then
            m_name <$> parseElmJson fs
              (path_join [projectRoot; lit ".."; lit ".."; ELM_JSON])
          else Ok None);
  transformations ← extractReadme fs readmeFile name;
  let directory := path_join [elmHome; m_version m; lit "packages"] in
  extractDependencies fs directory (m_dependencies m) transformations.

Definition extractWithCache (fs : FS) (now : Z)
    (projectRoot elmHome : str) (test refresh : bool)
  : result (list Transform) * FS :=
  let transformationsFile :=
    path_join [projectRoot; ELM_STUFF; lit "transformations.json"] in
  let changed :=
    if refresh then refresh
    else needsCacheRefresh fs projectRoot transformationsFile in
  if negb changed then
    (readTextFile fs transformationsFile ≫= JSON_parse_Transforms, fs)
  else
    match extract fs projectRoot elmHome test with
    | Err e => (Err e, fs)
    | Ok transformations =>
        (Ok transformations,
         writeTextFile fs now transformationsFile (JSON_stringify transformations))
    end.

Definition xelm (fs : FS) (now : Z) (inputs : list str) (output : str)
    (options : option ExtraOptions) : result ElmCall * FS :=
  let projectRoot := default Deno_cwd (options ≫= opt_projectRoot) in
  let elmHome := default DEFAULT_ELM_HOME (options ≫= opt_elmHome) in
  let '(r, fs') :=
    extractWithCache fs now projectRoot elmHome
      (default false (options ≫= opt_test))
      (default false (options ≫= opt_refresh)) in
  (transformations ← r;
   let transformations :=
     match options ≫= opt_transformations with
     | Some ts => pushAll transformations ts
     | None => transformations
     end in
   Ok {| call_inputs := inputs;
         call_output := output;
         call_options :=
           {| opt_projectRoot := Some projectRoot;
              opt_elmHome := Some elmHome;
              opt_debug := options ≫= opt_debug;
              opt_transformations := Some transformations;
              opt_test := options ≫= opt_test;
              opt_refresh := options ≫= opt_refresh |} |},
   fs').

End WithExternals.
End Shell.

(** ** The revision in [src/xelm.ts]

    Of this revision the preprocessor, the documentation scan and the cache
    are embedded; its [transform] escapes with a package that is not part of
    the repository. *)

Module Xelm.
Section WithExternals.
Context `{Externals}.

Inductive Flags := flag_debug | flag_test | flag_module.

(** [check.includes(flag)] together with the cast of [flag]. *)
Definition check_includes (flag : option str) : option Flags :=
  match flag with
  | Some s => if bool_decide (s = lit "debug") then Some flag_debug
              else if bool_decide (s = lit "test") then Some flag_test
              else if bool_decide (s = lit "module") then Some flag_module
              else None
  | None => None
  end.

Definition config_get (config : PostConfig) (flag : Flags) : bool :=
  match flag with
  | flag_debug => debug config
  | flag_test => test config
  | flag_module => module config
  end.

Definition marker (stack : list Flags) (line : str) : option (list Flags) :=
  let parts := splitSpaces false (trim line) in
  let comment := parts !! 0 in
  let cond := parts !! 1 in
  let flag := parts !! 2 in
  if is_text comment "//" then
    match (if is_text cond "@IF" then check_includes flag else None) with
    | Some f => Some (stack ++ [f])
    | None => if is_text cond "@FI" then Some (removelast stack) else None
    end
  else None.

Definition preprocess_line (config : PostConfig)
    (state : list Flags * list str) (line : str) : list Flags * list str :=
  let '(stack, lines) := state in
  match marker stack line with
  | Some stack' => (stack', lines)
  | None =>
      if forallb (config_get config) stack
      then (stack,
            lines ++ [if length stack =? 0 then line
                      else replaceFirst (repeat TAB (length stack)) [] line])
      else (stack, lines)
  end.

Definition preprocess (content : str) (config : PostConfig) : str :=
  let '(_, lines) :=
    fold_left (preprocess_line config) (split LF content) ([], []) in
  join [LF] lines.

(** The loop of [spacesToTabs].  A pass that changes the text shortens
    it, so the loop is over after at most as many passes as the text has
    code units. *)
Fixpoint spacesToTabs_loop (fuel : nat) (find : str) : str :=
  match fuel with
  | 0 => find
  | S fuel' =>
      let value := replaceTwoSpaces true find in
      if bool_decide (value = find) then find
      else spacesToTabs_loop fuel' value
  end.

Definition spacesToTabs (find : str) : str :=
  spacesToTabs_loop (length find) find.

(** The loop over the tokens and the check after it; [exit] raises. *)
Fixpoint scan (collect : bool) (find : option str)
    (transforms : list Transform) (tokens : list Token)
  : result (list Transform) :=
  match tokens with
  | [] => finish find transforms
  | token :: rest =>
      let stop := match token with
                  | heading depth => collect && (depth <? 4)
                  | _ => false
                  end in
      if stop then finish find transforms
      else
        let collect :=
          match token with
          | paragraph items => if negb collect && hasAnchor items then true
                               else collect
          | _ => collect
          end in
        match token with
        | code lang text =>
            if collect then
              if negb (bool_decide (lang = Some (lit "js"))) then
                Err (UnexpectedCodeBlock lang)
              else
                match find with
                | Some f =>
                    scan collect None
                      (transforms ++ [{| find := f; replace := text |}]) rest
                | None => scan collect (Some text) transforms rest
                end
            else scan collect find transforms rest
        | _ => scan collect find transforms rest
        end
  end.

Definition extractReadme (fs : FS) (filePath : str) : result (list Transform) :=
  if negb (exists_ fs filePath) then Ok []
  else
    content ← readTextFile fs filePath;
    scan false None [] (marked_lexer content).

Definition extractDependency (fs : FS) (dependency version directory : str)
  : result (list Transform) :=
  let parts := split "/" dependency in
  match parts !! 0, parts !! 1 with
  | Some author, Some name =>
      let markdownFile :=
        path_join [directory; author; name; version; README_MD] in
      extractReadme fs markdownFile
  | _, _ => Err PathNotString
  end.

Definition parseElmJson (fs : FS) (filePath : str) (test : bool)
  : result (str * list (str * str)) :=
  if negb (exists_ fs filePath) then Err (ManifestNotFound filePath)
  else
    text ← readTextFile fs filePath;
    elmJson ← JSON_parse_ElmJson text;
    match elm_version elmJson with
    | None => Err UndefinedElmVersion
    | Some version =>
        let deps := default {| direct := None; indirect := None |}
                            (if test then test_dependencies elmJson
                             else dependencies elmJson) in
        Ok (version, default [] (direct deps) ++ default [] (indirect deps))
    end.

Fixpoint extractDependencies (fs : FS) (directory : str)
    (deps : list (str * str)) (transformations : list Transform)
  : result (list Transform) :=
  match deps with
  | [] => Ok transformations
  | (dep, ver) :: deps' =>
      ts ← extractDependency fs dep ver directory;
      extractDependencies fs directory deps' (pushAll transformations ts)
  end.

Definition extract (fs : FS) (projectRoot elmHome : str) (test : bool)
  : result (list Transform) :=
  let readmeFile := path_join [projectRoot; README_MD] in
  transformations ← extractReadme fs readmeFile;
  let elmJsonFile := path_join [projectRoot; ELM_JSON] in
  '(version, dependencies) ← parseElmJson fs elmJsonFile test;
  let directory := path_join [elmHome; version; lit "packages"] in
  extractDependencies fs directory dependencies transformations.

(** The local [transformationsFile] of [extractWithCache]. *)
Definition transformationsFile (projectRoot : str) (test : bool) : str :=
  if test then path_join [projectRoot; ELM_STUFF; lit "transformations.test.json"]
  else path_join [projectRoot; ELM_STUFF; lit "transformations.json"].

Definition extractWithCache (fs : FS) (now : Z)
    (projectRoot elmHome : str) (test refresh : bool)
  : result (list Transform) * FS :=
  let transformationsFile := transformationsFile projectRoot test in
  let changed :=
    if refresh then refresh
    else needsCacheRefresh fs projectRoot transformationsFile in
  if negb changed then
    (readTextFile fs transformationsFile ≫= JSON_parse_Transforms, fs)
  else
    match extract fs projectRoot elmHome test with
    | Err e => (Err e, fs)
    | Ok transformations =>
        (Ok transformations,
         writeTextFile fs now transformationsFile (JSON_stringify transformations))
    end.

Definition xelm (fs : FS) (now : Z) (inputs : list str) (output : str)
    (options : option ExtraOptions) : result ElmCall * FS :=
  let projectRoot := default Deno_cwd (options ≫= opt_projectRoot) in
  let elmHome := default DEFAULT_ELM_HOME (options ≫= opt_elmHome) in
  let '(r, fs') :=
    extractWithCache fs now projectRoot elmHome
      (default false (options ≫= opt_test))
      (default false (options ≫= opt_refresh)) in
  (transformations ← r;
   let transformations :=
     match options ≫= opt_transformations with
     | Some ts => pushAll transformations ts
     | None => transformations
     end in
   Ok {| call_inputs := inputs;
         call_output := output;
         call_options :=
           {| opt_projectRoot := Some projectRoot;
              opt_elmHome := Some elmHome;
              opt_debug := options ≫= opt_debug;
              opt_transformations := Some transformations;
              opt_test := options ≫= opt_test;
              opt_refresh := options ≫= opt_refresh |} |},
   fs').

End WithExternals.
End Xelm.

(** ** Specification-side definitions

    The notions the specification speaks in, to be compared with the
    functions above. *)

(** [pat] occurs in [s]. *)
Definition occursIn (pat s : str) : Prop :=
  exists pre post, s = pre ++ pat ++ post.

(** The conditional blocks that are open after the lines [lines]. *)
Definition openAfter (lines : list str) : list Shell.Scope :=
  fold_left (fun stack line => default stack (Shell.marker stack line)) lines [].

(** An open condition holds: its required truth is the value of its flag. *)
Definition holds (config : PostConfig) (s : Shell.Scope) : bool :=
  Bool.eqb (Shell.cond s) (Shell.config_get config (Shell.flag s)).

(** What a line contributes to the output when the blocks [stack] are open:
    nothing if it is a marker line or some open condition fails, otherwise
    the line without the first run of as many tabs as blocks are open. *)
Definition emission (config : PostConfig) (stack : list Shell.Scope)
    (line : str) : list str :=
  match Shell.marker stack line with
  | Some _ => []
  | None =>
      if forallb (holds config) stack
      then [replaceFirst (repeat TAB (length stack)) [] line]
      else []
  end.

(** A closing marker line: [// @END] up to white space and further words. *)
Definition isClosingMarker (line : str) : Prop :=
  forall stack, Shell.marker stack line = Some (removelast stack).






(** The tokens after the first paragraph that links to the anchor. *)
Fixpoint afterAnchor (tokens : list Token) : list Token :=
  match tokens with
  | [] => []
  | paragraph items :: rest =>
      if hasAnchor items then rest else afterAnchor rest
  | _ :: rest => afterAnchor rest
  end.

(** The tokens before the first heading of depth 1 to 3. *)
Fixpoint beforeHeading (tokens : list Token) : list Token :=
  match tokens with
  | [] => []
  | heading depth :: rest =>
      if depth <? 4 then [] else heading depth :: beforeHeading rest
  | token :: rest => token :: beforeHeading rest
  end.

Definition codeBlocks (tokens : list Token) : list (option str * str) :=
  flat_map (fun token => match token with
                         | code lang text => [(lang, text)]
                         | _ => []
                         end) tokens.

(** The code blocks a scan collects: those between the anchor and the next
    heading of depth 1 to 3, as (language tag, text). *)
Definition collected (tokens : list Token) : list (option str * str) :=
  codeBlocks (beforeHeading (afterAnchor tokens)).

Definition isJs (block : option str * str) : Prop := block.1 = Some (lit "js").

(** Block [2i] as [find], block [2i+1] as [replace]. *)
Fixpoint pairs (texts : list str) : list Transform :=
  match texts with
  | f :: r :: rest => {| find := f; replace := r |} :: pairs rest
  | _ => []
  end.

(** The example of the specification for the conditional preprocessor. *)
Definition nested_example : str :=
  join [LF] [lit "// @IF debug"; lit "A"; lit "// @UNLESS test"; lit "B";
             lit "// @END"; lit "// @END"].

Definition flags (debug test : bool) : PostConfig :=
  {| module := false; debug := debug; test := test; transformations := [] |}.
Definition unmatched_end_text : str :=
  join [LF] [lit "a"; lit "// @END"; lit "b"].

(** The scan on the collected blocks alone: the code-block branch of the
    loop and the check after it, with [norm] for what the scan does to the
    text of a block. *)
Fixpoint pairBlocks (norm : str -> str) (find : option str)
    (transforms : list Transform) (blocks : list (option str * str))
  : result (list Transform) :=
  match blocks with
  | [] => finish find transforms
  | (lang, text) :: rest =>
      if negb (bool_decide (lang = Some (lit "js"))) then
        Err (UnexpectedCodeBlock lang)
      else
        match find with
        | Some f =>
            pairBlocks norm None
              (transforms ++ [{| find := f; replace := norm text |}]) rest
        | None => pairBlocks norm (Some (norm text)) transforms rest
        end
  end.

(** What the scan of the later revision does to the text of a block. *)
Definition normalise (regExp : option RegExp) (text : str) : str :=
  Shell.spacesToTabs (Shell.rewriteNamespace regExp text) "    ".

Definition jsBlock (text : str) : option str * str := (Some (lit "js"), text).

Definition pending (find : option str) : nat :=
  match find with
  | Some _ => 1
  | None => 0
  end.

(** The normalised find text of a rule, as [transform] matches it. *)
Definition fmt (t : Transform) : str := Shell.spacesToTabs (find t) "  ".

(** The replacement text of a rule under a flag environment. *)
Definition replacement (config : PostConfig) (t : Transform) : str :=
  Shell.preprocess (Shell.spacesToTabs (replace t) "  ") config.

(** The tokens of a disjunction of literal alternatives. *)
Fixpoint disjunctionTokens (alts : list str) : list PatternToken :=
  match alts with
  | [] => []
  | [a] => map PatternCharacter a
  | a :: alts' =>
      map PatternCharacter a ++ SyntaxCharacter "|" :: disjunctionTokens alts'
  end.

(** The alternatives of the pattern compiled from the texts [alts]; the
    pattern of no text at all is [()], which has the empty alternative. *)
Definition compiledAlternatives (alts : list str) : list str :=
  match alts with
  | [] => [[]]
  | _ => alts
  end.

(** What a matched text is replaced by: the replacement of the last rule
    with that normalised find text. *)
Definition replacementFor (config : PostConfig) (ts : list Transform)
    (matched : str) : str :=
  match List.find (fun t => bool_decide (fmt t = matched)) (rev ts) with
  | Some t => replacement config t
  | None => matched
  end.

(** The staleness check in the words of the specification: the time of a
    source is its modification time, or [+infinity] when the file is missing
    (or its time is not available); the time of the artifact is its
    modification time (0 when not available); the cache is stale when the
    artifact is missing or the later of the two sources is later than it. *)
Definition sourceTime (fs : FS) (filePath : str) : Time :=
  match fs !! filePath ≫= mtime with
  | Some ms => Finite ms
  | None => Infinity
  end.

Definition artifactTime (fs : FS) (filePath : str) : Z :=
  default 0%Z (fs !! filePath ≫= mtime).

Definition Time_max (a b : Time) : Time :=
  match a, b with
  | Finite x, Finite y => Finite (Z.max x y)
  | _, _ => Infinity
  end.

Definition stale (fs : FS) (projectRoot artifact : str) : bool :=
  bool_decide (fs !! artifact = None)
  || Time_gt (Time_max (sourceTime fs (path_join [projectRoot; ELM_JSON]))
                       (sourceTime fs (path_join [projectRoot; README_MD])))
             (Finite (artifactTime fs artifact)).

(** A line that the marker branch of the preprocessor takes. *)
Definition isMarkerLine (line : str) : bool :=
  bool_decide (is_Some (Shell.marker [] line)).

(** A paragraph that links to the anchor, and a heading of depth 1 to 3. *)
Definition isAnchorParagraph (token : Token) : bool :=
  match token with
  | paragraph items => hasAnchor items
  | _ => false
  end.

Definition endsSection (token : Token) : bool :=
  match token with
  | heading depth => depth <? 4
  | _ => false
  end.

(** The two parts of the text that [modularize] puts around the body. *)
Definition MODULE_HEAD : str :=
  lit "const scope = {};" ++ [LF] ++ lit "(function(scope){".

Definition MODULE_TAIL : str :=
  lit "(scope));" ++ [LF] ++ lit "export default scope.Elm;".

(** A text that begins with white space, and a text of one line. *)
Definition beginsWithSpace (s : str) : bool :=
  match s with
  | c :: _ => isSpace c
  | [] => false
  end.

Definition singleLine (s : str) : bool :=
  forallb (fun c => negb (isLineTerminator c)) s.

(** [changed] is [original] with every dash replaced by an underscore. *)
Definition underscored (original changed : str) : Prop :=
  Forall2 (fun c c' => c' = if Ascii.eqb c "-" then "_"%char else c)
          original changed.

(** ** Example environments *)

Definition lookupText {A} (table : list (str * A)) (text : str) : option A :=
  snd <$> List.find (fun e => bool_decide (e.1 = text)) table.

(** Externals given by tables: what the lexer returns on the listed
    documents, what the JSON parser returns on the listed manifests, and the
    JSON texts of the listed rule sets. *)
Definition tableExternals (docs : list (str * list Token))
    (manifests : list (str * ElmJson))
    (artifacts : list (str * list Transform)) : Externals :=
  {| marked_lexer := fun content => default [] (lookupText docs content);
     JSON_parse_Transforms := fun text =>
       match lookupText artifacts text with
       | Some ts => Ok ts
       | None => Err JsonSyntaxError
       end;
     JSON_stringify := fun ts =>
       match List.find (fun e => bool_decide (e.2 = ts)) artifacts with
       | Some e => e.1
       | None => lit "[]"
       end;
     JSON_parse_ElmJson := fun text =>
       match lookupText manifests text with
       | Some m => Ok m
       | None => Err JsonSyntaxError
       end;
     Deno_cwd := lit "/work";
     DEFAULT_ELM_HOME := lit "/home/.elm" |}.

(** A documentation text with the anchor and two [js] blocks, the first
    indented by four spaces, and its tokens. *)
Definition indented_doc : str :=
  join [LF] [lit "[rules](#98f5c378-5809-4e35-904e-d1c5c3a8154e)"; lit "";
             lit "```js"; lit "    x"; lit "```"; lit "";
             lit "```js"; lit "y"; lit "```"; lit ""].

Definition indented_tokens : list Token :=
  [paragraph [link ANCHOR]; token_other;
   code (Some (lit "js")) (lit "    x"); token_other;
   code (Some (lit "js")) (lit "y")].

(** The documentation of a package [acme/widgets] whose rule names a
    compiled symbol of the package, and the manifest of a project that
    depends on it. *)
Definition widgets_doc : str :=
  join [LF] [lit "[rules](#98f5c378-5809-4e35-904e-d1c5c3a8154e)"; lit "";
             lit "```js"; lit "var $acme$widgets$foo = 1;"; lit "```"; lit "";
             lit "```js"; lit "var $acme$widgets$foo = 2;"; lit "```"; lit ""].

Definition widgets_tokens : list Token :=
  [paragraph [link ANCHOR]; token_other;
   code (Some (lit "js")) (lit "var $acme$widgets$foo = 1;"); token_other;
   code (Some (lit "js")) (lit "var $acme$widgets$foo = 2;")].

Definition quoted (s : string) : str :=
  [ascii_of_nat 34] ++ lit s ++ [ascii_of_nat 34].

Definition app_manifest_text : str :=
  lit "{" ++ quoted "elm-version" ++ lit ":" ++ quoted "0.19.1" ++ lit ","
  ++ quoted "dependencies" ++ lit ":{" ++ quoted "direct" ++ lit ":{"
  ++ quoted "acme/widgets" ++ lit ":" ++ quoted "1.0.0" ++ lit "}}}".

Definition app_manifest : ElmJson :=
  {| name := None;
     elm_version := Some (lit "0.19.1");
     dependencies :=
       Some {| direct := Some [(lit "acme/widgets", lit "1.0.0")];
               indirect := None |};
     test_dependencies := None |}.

Definition exampleExternals : Externals :=
  tableExternals [(indented_doc, indented_tokens); (widgets_doc, widgets_tokens)]
                 [(app_manifest_text, app_manifest)] [].

Definition file_at (ms : Z) (text : str) : File :=
  {| content := text; mtime := Some ms |}.

(** A project [/work] that depends on [acme/widgets], installed under
    [/home/.elm]. *)
Definition app_fs : FS :=
  <[lit "/work/elm.json" := file_at 10 app_manifest_text]>
  (<[lit "/home/.elm/0.19.1/packages/acme/widgets/1.0.0/README.md" :=
       file_at 5 widgets_doc]> ∅).

Definition indented_fs : FS :=
  <[lit "/work/README.md" := file_at 7 indented_doc]> ∅.

(** A project [/work] whose own documentation has the rule [X] to [R]. *)
Definition rule_doc : str :=
  join [LF] [lit "[rules](#98f5c378-5809-4e35-904e-d1c5c3a8154e)"; lit "";
             lit "```js"; lit "X"; lit "```"; lit "";
             lit "```js"; lit "R"; lit "```"; lit ""].

Definition rule_tokens : list Token :=
  [paragraph [link ANCHOR]; token_other;
   code (Some (lit "js")) (lit "X"); token_other;
   code (Some (lit "js")) (lit "R")].

(** A rule set persisted earlier, which differs from what the documentation
    now yields. *)
Definition cached_rules : list Transform :=
  [{| find := lit "X"; replace := lit "OLD" |}].

Definition cached_text : str := lit "[cached rules]".

Definition ruleExternals : Externals :=
  tableExternals [(rule_doc, rule_tokens)] [(app_manifest_text, app_manifest)]
                 [(cached_text, cached_rules)].

Definition rule_fs : FS :=
  <[lit "/work/README.md" := file_at 7 rule_doc]>
  (<[lit "/work/elm.json" := file_at 10 app_manifest_text]> ∅).

(** The same project with an artifact written at the time [ms]; its sources
    have the times 7 and 10. *)
Definition cached_fs (ms : Z) : FS :=
  <[lit "/work/elm-stuff/transformations.json" := file_at ms cached_text]> rule_fs.

(** The caller supplies the rule [X] to [C]. *)
Definition caller_options : ExtraOptions :=
  {| opt_projectRoot := None;
     opt_elmHome := None;
     opt_debug := None;
     opt_transformations := Some [{| find := lit "X"; replace := lit "C" |}];
     opt_test := None;
     opt_refresh := None |}.

Definition with_rules (ts : list Transform) : PostConfig :=
  {| module := false; debug := false; test := false; transformations := ts |}.

(** The compiled-symbol prefix of the package [acme/widgets]. *)
Definition ACME_WIDGETS : str := "$acme$widgets$".

(** A manifest that lists, after [acme/widgets], a dependency whose
    identifier has no slash. *)
Definition bare_manifest_text : str :=
  lit "{" ++ quoted "elm-version" ++ lit ":" ++ quoted "0.19.1" ++ lit ","
  ++ quoted "dependencies" ++ lit ":{" ++ quoted "direct" ++ lit ":{"
  ++ quoted "acme/widgets" ++ lit ":" ++ quoted "1.0.0" ++ lit ","
  ++ quoted "widgets" ++ lit ":" ++ quoted "1.0.0" ++ lit "}}}".

Definition bare_manifest : ElmJson :=
  {| name := None;
     elm_version := Some (lit "0.19.1");
     dependencies :=
       Some {| direct := Some [(lit "acme/widgets", lit "1.0.0");
                               (lit "widgets", lit "1.0.0")];
               indirect := None |};
     test_dependencies := None |}.

Definition bareExternals : Externals :=
  tableExternals [(widgets_doc, widgets_tokens)]
                 [(bare_manifest_text, bare_manifest)] [].

Definition bare_fs : FS :=
  <[lit "/work/elm.json" := file_at 10 bare_manifest_text]>
  (<[lit "/home/.elm/0.19.1/packages/acme/widgets/1.0.0/README.md" :=
       file_at 5 widgets_doc]> ∅).

(** Externals whose JSON functions know the rule set that the documentation
    of [/work] yields. *)
Definition persisted_rules : list Transform :=
  [{| find := lit "X"; replace := lit "R" |}].

Definition persisted_text : str :=
  lit "[{" ++ quoted "find" ++ lit ":" ++ quoted "X" ++ lit ","
  ++ quoted "replace" ++ lit ":" ++ quoted "R" ++ lit "}]".

Definition persistingExternals : Externals :=
  tableExternals [(rule_doc, rule_tokens)] [(app_manifest_text, app_manifest)]
                 [(persisted_text, persisted_rules)].

(** The project [/work] with a fresh artifact, and in front of it the
    documentation two directories up, changed after the artifact was
    written. *)
Definition parent_fs : FS :=
  <[lit "/work/../../README.md" := file_at 99 rule_doc]> (cached_fs 50).

(** The packages [acme/gadgets] with the rule [G] to [H] and [acme/extras]
    with the rule [E] to [F], and a project whose manifest lists
    [acme/widgets] and [acme/extras] as direct dependencies and
    [acme/gadgets] as an indirect one. *)
Definition gadgets_doc : str :=
  join [LF] [lit "[rules](#98f5c378-5809-4e35-904e-d1c5c3a8154e)"; lit "";
             lit "```js"; lit "G"; lit "```"; lit "";
             lit "```js"; lit "H"; lit "```"; lit ""].

Definition gadgets_tokens : list Token :=
  [paragraph [link ANCHOR]; token_other;
   code (Some (lit "js")) (lit "G"); token_other;
   code (Some (lit "js")) (lit "H")].

Definition extras_doc : str :=
  join [LF] [lit "[rules](#98f5c378-5809-4e35-904e-d1c5c3a8154e)"; lit "";
             lit "```js"; lit "E"; lit "```"; lit "";
             lit "```js"; lit "F"; lit "```"; lit ""].

Definition extras_tokens : list Token :=
  [paragraph [link ANCHOR]; token_other;
   code (Some (lit "js")) (lit "E"); token_other;
   code (Some (lit "js")) (lit "F")].

Definition layered_manifest_text : str :=
  lit "{" ++ quoted "elm-version" ++ lit ":" ++ quoted "0.19.1" ++ lit ","
  ++ quoted "dependencies" ++ lit ":{" ++ quoted "direct" ++ lit ":{"
  ++ quoted "acme/widgets" ++ lit ":" ++ quoted "1.0.0" ++ lit ","
  ++ quoted "acme/extras" ++ lit ":" ++ quoted "3.0.0" ++ lit "},"
  ++ quoted "indirect" ++ lit ":{"
  ++ quoted "acme/gadgets" ++ lit ":" ++ quoted "2.0.0" ++ lit "}}}".

Definition layered_manifest : ElmJson :=
  {| name := None;
     elm_version := Some (lit "0.19.1");
     dependencies :=
       Some {| direct := Some [(lit "acme/widgets", lit "1.0.0");
                               (lit "acme/extras", lit "3.0.0")];
               indirect := Some [(lit "acme/gadgets", lit "2.0.0")] |};
     test_dependencies := None |}.

Definition layeredExternals : Externals :=
  tableExternals [(rule_doc, rule_tokens); (widgets_doc, widgets_tokens);
                  (gadgets_doc, gadgets_tokens); (extras_doc, extras_tokens)]
                 [(layered_manifest_text, layered_manifest)] [].

Definition layered_fs : FS :=
  <[lit "/work/elm.json" := file_at 10 layered_manifest_text]>
  (<[lit "/work/README.md" := file_at 7 rule_doc]>
   (<[lit "/home/.elm/0.19.1/packages/acme/widgets/1.0.0/README.md" :=
        file_at 5 widgets_doc]>
    (<[lit "/home/.elm/0.19.1/packages/acme/extras/3.0.0/README.md" :=
         file_at 5 extras_doc]>
     (<[lit "/home/.elm/0.19.1/packages/acme/gadgets/2.0.0/README.md" :=
          file_at 5 gadgets_doc]> ∅)))).

(** * Properties *)

(** ** The string and pattern primitives on small inputs *)

Example split_trailing :
  split LF (lit "a" ++ [LF] ++ lit "b" ++ [LF]) = [lit "a"; lit "b"; lit ""].
Proof. reflexivity. Qed.

Example splitSpaces_words :
  splitSpaces false (trim (lit "  //   @IF  test ")) =
  [lit "//"; lit "@IF"; lit "test"].
Proof. reflexivity. Qed.

Example splitSpaces_empty : splitSpaces false (trim (lit "   ")) = [lit ""].
Proof. reflexivity. Qed.

Example replaceAll_pairs :
  replaceAll (lit "  ") [TAB] (lit "     x") = [TAB; TAB] ++ lit " x".
Proof. reflexivity. Qed.

Example spacesToTabs_lines :
  Shell.spacesToTabs (lit "  a  b" ++ [LF] ++ lit "    c") (lit "  ") =
  [TAB] ++ lit "a  b" ++ [LF; TAB; TAB] ++ lit "c".
Proof. reflexivity. Qed.

Example escapeRegExp_specials :
  Shell.escapeRegExp (lit "f(x) = $a.b[0]") = lit "f\(x\) = \$a\.b\[0\]".
Proof. reflexivity. Qed.

Example parseRegExp_disjunction :
  parseRegExp (lit "(a\.b|\$c)") = Some {| alternatives := [lit "a.b"; lit "$c"] |}.
Proof. reflexivity. Qed.

Example parseRegExp_quantifier : parseRegExp (lit "(a*)") = None.
Proof. reflexivity. Qed.

Example regexReplace_empty_alternative :
  regexReplaceFrom [lit "a"; lit ""] (fun _ => lit "X") 0 (lit "ab") = lit "XXbX".
Proof. reflexivity. Qed.

(** ** The conditional preprocessor *)

Lemma flat_map_ext_In {A B} (f g : A -> list B) (l : list A) :
  (forall a, In a l -> f a = g a) -> flat_map f l = flat_map g l.
Proof.
  induction l as [|a l IH]; intros Hfg; [done|].
  simpl. rewrite (Hfg a) by (by left). rewrite IH; [done|].
  intros b Hb. apply Hfg. by right.
Qed.

Section Preprocess.
Variable config : PostConfig.

Lemma preprocess_line_spec stack lines line :
  Shell.preprocess_line config (stack, lines) line =
  (default stack (Shell.marker stack line), lines ++ emission config stack line).
Proof.
  unfold Shell.preprocess_line, emission.
  destruct (Shell.marker stack line) as [stack'|]; simpl.
  - by rewrite app_nil_r.
  - fold (holds config).
    destruct (forallb (holds config) stack) eqn:Hall; [|by rewrite app_nil_r].
    destruct stack as [|s stack]; simpl; [|done].
    by destruct line.
Qed.

Lemma openAfter_snoc lines line :
  openAfter (lines ++ [line]) =
  default (openAfter lines) (Shell.marker (openAfter lines) line).
Proof. unfold openAfter. by rewrite fold_left_app. Qed.

Lemma preprocess_loop_spec lines :
  fold_left (Shell.preprocess_line config) lines ([], []) =
  (openAfter lines,
   flat_map (fun i => emission config (openAfter (take i lines)) (nth i lines []))
            (seq 0 (length lines))).
Proof.
  induction lines as [|line lines IH] using rev_ind; [done|].
  rewrite fold_left_app, IH. cbn [fold_left].
  rewrite preprocess_line_spec.
  rewrite openAfter_snoc. f_equal.
  rewrite length_app. cbn [length]. rewrite seq_app, flat_map_app.
  cbn [seq flat_map Nat.add]. rewrite app_nil_r. f_equal.
  - apply flat_map_ext_In. intros i Hi. apply in_seq in Hi.
    rewrite take_app_le by lia. rewrite app_nth1 by lia. done.
  - rewrite take_app_length. rewrite nth_middle. done.
Qed.
End Preprocess.


Lemma startsWith_app (pat s : str) : startsWith pat (pat ++ s) = true.
Proof.
  induction pat as [|p pat IH]; [done|].
  simpl. rewrite IH. by rewrite (proj2 (Ascii.eqb_eq p p) eq_refl).
Qed.

Lemma startsWith_take pat s : startsWith pat s = true <-> take (length pat) s = pat.
Proof.
  revert s. induction pat as [|p pat IH]; intros s.
  - cbn. by rewrite take_0.
  - destruct s as [|c s]; cbn; [done|].
    rewrite andb_true_iff, Ascii.eqb_eq, IH.
    split; [intros [-> ->]; done|]. intros [= -> Ht]. done.
Qed.




Lemma marker_lines stack line :
  let words := splitSpaces false (trim line) in
  is_Some (Shell.marker stack line) <->
  words !! 0 = Some (lit "//")
  /\ ((words !! 1 = Some (lit "@IF") /\ is_Some (Shell.vars_includes (words !! 2)))
      \/ (words !! 1 = Some (lit "@UNLESS")
          /\ is_Some (Shell.vars_includes (words !! 2)))
      \/ words !! 1 = Some (lit "@END")).
Proof.
  intros words. unfold Shell.marker, is_text. fold words.
  destruct (bool_decide_reflect (words !! 0 = Some (lit "//"))) as [H0|H0];
    [|split; [by intros [? ?]|by intros [? _]]].
  destruct (bool_decide_reflect (words !! 1 = Some (lit "@IF"))) as [H1|H1];
    destruct (bool_decide_reflect (words !! 1 = Some (lit "@UNLESS"))) as [H2|H2];
    destruct (bool_decide_reflect (words !! 1 = Some (lit "@END"))) as [H3|H3];
    destruct (Shell.vars_includes (words !! 2)) as [f|];
    (split; [intros [stack' Hm]; try discriminate Hm|intros [_ Hm]; try (by eexists)]);
    try (split; [done|]); try (by left; split; [|eexists]);
    try (by right; left; split; [|eexists]); try (by right; right);
    try congruence;
    destruct Hm as [[? [? ?]]|[[? [? ?]]|?]]; try done; congruence.
Qed.









Lemma preprocess_loop_app config pre post :
  fold_left (Shell.preprocess_line config) (pre ++ post) ([], []) =
  fold_left (Shell.preprocess_line config) post
    (fold_left (Shell.preprocess_line config) pre ([], [])).
Proof. apply fold_left_app. Qed.

(** C7, as the code has it.  The preprocessor has no failure: it returns a
    text for every input.  A closing marker line that is met while no block
    is open is dropped and leaves the stack of open blocks empty, so the
    output is that of the text without the line. *)
Theorem preprocess_unmatched_end config content content' pre line post :
  split LF content = pre ++ line :: post ->
  split LF content' = pre ++ post ->
  isClosingMarker line ->
  openAfter pre = [] ->
  Shell.preprocess content config = Shell.preprocess content' config.
Proof.
  intros Hc Hc' Hline Hopen. unfold Shell.preprocess.
  rewrite Hc, Hc', !preprocess_loop_app.
  cbn [fold_left]. rewrite preprocess_loop_spec, Hopen.
  rewrite preprocess_line_spec. unfold emission. rewrite Hline.
  cbn. by rewrite app_nil_r.
Qed.

Lemma closing_marker_END : isClosingMarker (lit "// @END").
Proof. intros stack. reflexivity. Qed.

Lemma preprocess_unmatched_end_witness :
  Shell.preprocess unmatched_end_text (flags false false) =
  Shell.preprocess (join [LF] [lit "a"; lit "b"]) (flags false false).
Proof.
  apply (preprocess_unmatched_end (flags false false) unmatched_end_text
           (join [LF] [lit "a"; lit "b"]) [lit "a"] (lit "// @END") [lit "b"]).
  - reflexivity.
  - reflexivity.
  - exact closing_marker_END.
  - reflexivity.
Defined.

(** C7 as stated fails: on a text whose first line is a closing marker the
    preprocessor returns, with the remaining line as its output. *)
Lemma preprocess_unmatched_end_returns :
  Shell.preprocess (join [LF] [lit "// @END"; lit "x"]) (flags true false) = lit "x".
Proof. reflexivity. Qed.

(** ** The documentation scan *)

Section Scan.
Context `{Externals}.

Lemma Shell_scan_collecting regExp find transforms tokens :
  Shell.scan regExp true find transforms tokens =
  pairBlocks (normalise regExp) find transforms (codeBlocks (beforeHeading tokens)).
Proof.
  revert find transforms.
  induction tokens as [|token tokens IH]; intros find transforms; [done|].
  destruct token as [depth|items|lang text|]; cbn [Shell.scan beforeHeading].
  - cbn [andb]. destruct (depth <? 4); [done|]. apply IH.
  - cbn [negb andb]. apply IH.
  - cbn [codeBlocks flat_map app pairBlocks].
    destruct (negb (bool_decide (lang = Some (lit "js")))); [done|].
    destruct find; apply IH.
  - apply IH.
Qed.

Lemma Shell_scan_spec regExp tokens :
  Shell.scan regExp false None [] tokens =
  pairBlocks (normalise regExp) None [] (collected tokens).
Proof.
  unfold collected.
  induction tokens as [|token tokens IH]; [done|].
  destruct token as [depth|items|lang text|]; cbn [Shell.scan afterAnchor andb negb];
    try apply IH.
  destruct (hasAnchor items); [apply Shell_scan_collecting | apply IH].
Qed.

Lemma Xelm_scan_collecting find transforms tokens :
  Xelm.scan true find transforms tokens =
  pairBlocks id find transforms (codeBlocks (beforeHeading tokens)).
Proof.
  revert find transforms.
  induction tokens as [|token tokens IH]; intros find transforms; [done|].
  destruct token as [depth|items|lang text|]; cbn [Xelm.scan beforeHeading].
  - cbn [andb]. destruct (depth <? 4); [done|]. apply IH.
  - cbn [negb andb]. apply IH.
  - cbn [codeBlocks flat_map app pairBlocks].
    destruct (negb (bool_decide (lang = Some (lit "js")))); [done|].
    destruct find; apply IH.
  - apply IH.
Qed.

Lemma Xelm_scan_spec tokens :
  Xelm.scan false None [] tokens = pairBlocks id None [] (collected tokens).
Proof.
  unfold collected.
  induction tokens as [|token tokens IH]; [done|].
  destruct token as [depth|items|lang text|]; cbn [Xelm.scan afterAnchor andb negb];
    try apply IH.
  destruct (hasAnchor items); [apply Xelm_scan_collecting | apply IH].
Qed.
End Scan.

Lemma pairBlocks_outcome norm find transforms blocks :
  match pairBlocks norm find transforms blocks with
  | Ok _ => Forall isJs blocks /\ Nat.Even (pending find + length blocks)
  | Err e => isMalformedDoc e = true /\
             (Exists (fun b => ~ isJs b) blocks \/
              Nat.Odd (pending find + length blocks))
  end.
Proof.
  revert find transforms.
  induction blocks as [|[lang text] blocks IH]; intros find transforms.
  - destruct find; cbn.
    + split; [done|]. right. by exists 0.
    + split; [done|]. by exists 0.
  - cbn [pairBlocks]. unfold isJs at 1.
    destruct (bool_decide (lang = Some (lit "js"))) eqn:Hjs; cbn [negb].
    + apply bool_decide_eq_true_1 in Hjs.
      destruct find as [f|].
      * specialize (IH None (transforms ++ [{| find := f; replace := norm text |}])).
        destruct (pairBlocks norm None _ blocks); cbn [pending length] in *.
        -- destruct IH as [HF HE]. split; [by constructor|].
           replace (1 + S (length blocks)) with (S (S (0 + length blocks))) by lia.
           by rewrite Nat.Even_succ_succ.
        -- destruct IH as [HM [HX|HO]]; (split; [done|]).
           ++ left. by constructor.
           ++ right.
              replace (1 + S (length blocks)) with (S (S (0 + length blocks))) by lia.
              by rewrite Nat.Odd_succ_succ.
      * specialize (IH (Some (norm text)) transforms).
        destruct (pairBlocks norm (Some (norm text)) _ blocks); cbn [pending length] in *.
        -- destruct IH as [HF HE]. split; [by constructor|].
           by replace (0 + S (length blocks)) with (1 + length blocks) by lia.
        -- destruct IH as [HM [HX|HO]]; (split; [done|]).
           ++ left. by constructor.
           ++ right.
              by replace (0 + S (length blocks)) with (1 + length blocks) by lia.
    + apply bool_decide_eq_false_1 in Hjs.
      split; [done|]. left. by constructor.
Qed.

Lemma pairBlocks_pairs norm texts transforms :
  Nat.Even (length texts) ->
  pairBlocks norm None transforms (map jsBlock texts) =
  Ok (transforms ++ pairs (map norm texts)).
Proof.
  revert transforms.
  induction texts as [texts IH] using (induction_ltof1 _ (@length str)).
  unfold ltof in IH. intros transforms Heven.
  destruct texts as [|f [|r texts]].
  - cbn. by rewrite app_nil_r.
  - destruct Heven as [k Hk]. cbn in Hk. lia.
  - cbn [map pairBlocks jsBlock pairs].
    rewrite bool_decide_eq_true_2 by done. cbn [negb pairBlocks].
    rewrite IH.
    + by rewrite <- app_assoc.
    + cbn. lia.
    + cbn [length] in Heven. by rewrite Nat.Even_succ_succ in Heven.
Qed.

Lemma pairs_length (texts : list str) k :
  length texts = 2 * k -> length (pairs texts) = k.
Proof.
  revert texts. induction k as [|k IH]; intros texts Hlen.
  - by destruct texts.
  - destruct texts as [|f [|r texts]]; cbn in Hlen; try lia.
    cbn. f_equal. apply IH. lia.
Qed.

Lemma pairs_lookup (texts : list str) i f r :
  texts !! (2 * i) = Some f -> texts !! (2 * i + 1) = Some r ->
  pairs texts !! i = Some {| find := f; replace := r |}.
Proof.
  revert texts. induction i as [|i IH]; intros texts Hf Hr.
  - change (2 * 0) with 0 in Hf. change (2 * 0 + 1) with 1 in Hr.
    destruct texts as [|f' [|r' texts]]; try done.
    cbn in Hf, Hr. cbn. congruence.
  - replace (2 * S i) with (S (S (2 * i))) in Hf by lia.
    replace (2 * S i + 1) with (S (S (2 * i + 1))) in Hr by lia.
    destruct texts as [|f' [|r' texts]]; cbn in Hf, Hr; try done.
    cbn. by apply IH.
Qed.

Section Extraction.
Context `{Externals}.

Lemma Shell_extractReadme_spec fs filePath namespace regExp file :
  fs !! filePath = Some file ->
  Shell.namespaceRegExp namespace = Ok regExp ->
  Shell.extractReadme fs filePath namespace =
  pairBlocks (normalise regExp) None [] (collected (marked_lexer (content file))).
Proof.
  intros Hfile Hns. unfold Shell.extractReadme, exists_, readTextFile.
  rewrite Hfile, Hns. rewrite bool_decide_eq_true_2 by (by eexists).
  cbn. apply Shell_scan_spec.
Qed.

Lemma Shell_extractReadme_missing fs filePath namespace :
  fs !! filePath = None -> Shell.extractReadme fs filePath namespace = Ok [].
Proof.
  intros Hfile. unfold Shell.extractReadme, exists_. rewrite Hfile.
  by rewrite bool_decide_eq_false_2 by (by intros [? ?]).
Qed.

Lemma Xelm_extractReadme_spec fs filePath file :
  fs !! filePath = Some file ->
  Xelm.extractReadme fs filePath =
  pairBlocks id None [] (collected (marked_lexer (content file))).
Proof.
  intros Hfile. unfold Xelm.extractReadme, exists_, readTextFile.
  rewrite Hfile. rewrite bool_decide_eq_true_2 by (by eexists).
  cbn. apply Xelm_scan_spec.
Qed.

Lemma pairBlocks_transforms norm texts n :
  length texts = 2 * n ->
  exists transforms,
    pairBlocks norm None [] (map jsBlock texts) = Ok transforms
    /\ transforms = pairs (map norm texts)
    /\ length transforms = n
    /\ forall i, i < n ->
         exists f r, texts !! (2 * i) = Some f /\ texts !! (2 * i + 1) = Some r
           /\ transforms !! i = Some {| find := norm f; replace := norm r |}.
Proof.
  intros Hlen. exists (pairs (map norm texts)).
  split; [|split; [done|split]].
  - rewrite pairBlocks_pairs; [done|]. exists n. lia.
  - apply pairs_length. by rewrite length_map.
  - intros i Hi.
    destruct (lookup_lt_is_Some_2 texts (2 * i)) as [f Hf]; [lia|].
    destruct (lookup_lt_is_Some_2 texts (2 * i + 1)) as [r Hr]; [lia|].
    exists f, r. split; [done|]. split; [done|].
    apply pairs_lookup; rewrite list_lookup_fmap; [by rewrite Hf|by rewrite Hr].
Qed.

(** C1, as the later revision has it.  When the code blocks collected after
    the anchor are [2n] blocks tagged [js], [extractReadme] returns exactly
    [n] Transforms in the order of discovery, and for every [i] the find
    field is block [2i] and the replace field is block [2i+1], each after the
    normalisation of the scan: the namespace rewrite, if a matcher was
    built, and then a tab for every four spaces of the white space that
    begins a line. *)
Theorem extractReadme_pairs fs filePath namespace regExp file texts n :
  fs !! filePath = Some file ->
  Shell.namespaceRegExp namespace = Ok regExp ->
  collected (marked_lexer (content file)) = map jsBlock texts ->
  length texts = 2 * n ->
  exists transforms,
    Shell.extractReadme fs filePath namespace = Ok transforms
    /\ transforms = pairs (map (normalise regExp) texts)
    /\ length transforms = n
    /\ forall i, i < n ->
         exists f r, texts !! (2 * i) = Some f /\ texts !! (2 * i + 1) = Some r
           /\ transforms !! i = Some {| find := normalise regExp f;
                                        replace := normalise regExp r |}.
Proof.
  intros Hfile Hns Hblocks Hlen.
  rewrite (Shell_extractReadme_spec _ _ _ _ _ Hfile Hns), Hblocks.
  by apply pairBlocks_transforms.
Qed.

(** In [src/xelm.ts] the texts of the blocks are taken as they are. *)
Lemma Xelm_extractReadme_pairs fs filePath file texts n :
  fs !! filePath = Some file ->
  collected (marked_lexer (content file)) = map jsBlock texts ->
  length texts = 2 * n ->
  exists transforms,
    Xelm.extractReadme fs filePath = Ok transforms
    /\ transforms = pairs texts
    /\ length transforms = n
    /\ forall i, i < n ->
         exists f r, texts !! (2 * i) = Some f /\ texts !! (2 * i + 1) = Some r
           /\ transforms !! i = Some {| find := f; replace := r |}.
Proof.
  intros Hfile Hblocks Hlen.
  rewrite (Xelm_extractReadme_spec _ _ _ Hfile), Hblocks.
  destruct (pairBlocks_transforms id texts n Hlen) as (ts & H1 & H2 & H3 & H4).
  exists ts. rewrite map_id in H2. done.
Qed.

(** C6.  Once the file is there and the namespace matcher, if one is asked
    for, has been built, [extractReadme] fails if and only if a collected
    code block has a language tag other than [js] or the number of collected
    code blocks is odd; every such failure is one of the two errors of the
    scan, and in all other cases it returns. *)
Theorem extractReadme_fails_iff fs filePath namespace regExp file :
  fs !! filePath = Some file ->
  Shell.namespaceRegExp namespace = Ok regExp ->
  let blocks := collected (marked_lexer (content file)) in
  ((exists e, Shell.extractReadme fs filePath namespace = Err e) <->
   (Exists (fun b => ~ isJs b) blocks \/ Nat.Odd (length blocks)))
  /\ (forall e, Shell.extractReadme fs filePath namespace = Err e ->
                isMalformedDoc e = true)
  /\ (~ (Exists (fun b => ~ isJs b) blocks \/ Nat.Odd (length blocks)) ->
      exists transforms, Shell.extractReadme fs filePath namespace = Ok transforms).
Proof.
  intros Hfile Hns blocks.
  rewrite (Shell_extractReadme_spec _ _ _ _ _ Hfile Hns). fold blocks.
  pose proof (pairBlocks_outcome (normalise regExp) None [] blocks) as Hout.
  cbn [pending Nat.add] in Hout.
  destruct (pairBlocks (normalise regExp) None [] blocks) as [ts|e].
  - destruct Hout as [HF HE]. split; [|split].
    + split; [by intros [e ?]|]. intros [HX|HO].
      * exfalso. apply Exists_exists in HX as (b & Hb & Hnjs).
        rewrite Forall_forall in HF. by apply Hnjs, HF.
      * exfalso. by apply (Nat.Even_Odd_False (length blocks)).
    + by intros e ?.
    + intros _. by exists ts.
  - destruct Hout as [HM Hcause]. split; [|split].
    + split; [done|]. intros _. by exists e.
    + intros e' [= <-]. done.
    + intros Hnot. by destruct Hnot.
Qed.

(** The same for [src/xelm.ts], which builds no matcher. *)
Lemma Xelm_extractReadme_fails_iff fs filePath file :
  fs !! filePath = Some file ->
  let blocks := collected (marked_lexer (content file)) in
  ((exists e, Xelm.extractReadme fs filePath = Err e) <->
   (Exists (fun b => ~ isJs b) blocks \/ Nat.Odd (length blocks)))
  /\ (forall e, Xelm.extractReadme fs filePath = Err e -> isMalformedDoc e = true).
Proof.
  intros Hfile blocks.
  rewrite (Xelm_extractReadme_spec _ _ _ Hfile). fold blocks.
  pose proof (pairBlocks_outcome id None [] blocks) as Hout.
  cbn [pending Nat.add] in Hout.
  destruct (pairBlocks id None [] blocks) as [ts|e].
  - destruct Hout as [HF HE]. split.
    + split; [by intros [e ?]|]. intros [HX|HO].
      * exfalso. apply Exists_exists in HX as (b & Hb & Hnjs).
        rewrite Forall_forall in HF. by apply Hnjs, HF.
      * exfalso. by apply (Nat.Even_Odd_False (length blocks)).
    + by intros e ?.
  - destruct Hout as [HM Hcause]. split.
    + split; [done|]. intros _. by exists e.
    + intros e' [= <-]. done.
Qed.

(** C5, as the code has it.  A dependency is scanned without a namespace
    matcher: the Transforms of a dependency whose collected blocks are an
    even number of [js] blocks are the pairs of their texts after the
    white-space normalisation alone, so the compiled-symbol prefix of the
    dependency stays as its documentation has it. *)
Theorem extractDependency_keeps_namespace fs dependency version directory
    author name rest file texts :
  split "/" dependency = author :: name :: rest ->
  fs !! path_join [directory; author; name; version; README_MD] = Some file ->
  collected (marked_lexer (content file)) = map jsBlock texts ->
  Nat.Even (length texts) ->
  Shell.extractDependency fs dependency version directory =
  Ok (pairs (map (fun text => Shell.spacesToTabs text "    ") texts)).
Proof.
  intros Hsplit Hfile Hblocks [n Hn].
  unfold Shell.extractDependency. rewrite Hsplit. cbn [lookup list_lookup].
  rewrite (Shell_extractReadme_spec _ _ None None _ Hfile eq_refl), Hblocks.
  rewrite pairBlocks_pairs by (by exists n). done.
Qed.
End Extraction.

Lemma extractReadme_pairs_witness :
  exists transforms,
    Shell.extractReadme (H := exampleExternals) indented_fs (lit "/work/README.md") None
      = Ok transforms
    /\ transforms = pairs (map (normalise None) [lit "    x"; lit "y"])
    /\ length transforms = 1
    /\ forall i, i < 1 ->
         exists f r, [lit "    x"; lit "y"] !! (2 * i) = Some f
           /\ [lit "    x"; lit "y"] !! (2 * i + 1) = Some r
           /\ transforms !! i = Some {| find := normalise None f;
                                        replace := normalise None r |}.
Proof.
  apply (extractReadme_pairs (H := exampleExternals) indented_fs
           (lit "/work/README.md") None None (file_at 7 indented_doc)
           [lit "    x"; lit "y"] 1).
  - reflexivity.
  - reflexivity.
  - reflexivity.
  - reflexivity.
Defined.

(** C1 as stated fails in the later revision: the first collected block has
    the text of four spaces and [x], and the find field of the Transform is
    a tab and [x]. *)
Lemma extractReadme_normalises_text :
  collected (marked_lexer (Externals := exampleExternals) indented_doc)
    = [jsBlock (lit "    x"); jsBlock (lit "y")]
  /\ Shell.extractReadme (H := exampleExternals) indented_fs (lit "/work/README.md") None
     = Ok [{| find := TAB :: lit "x"; replace := lit "y" |}]
  /\ TAB :: lit "x" <> lit "    x".
Proof. split; [reflexivity|]. split; [reflexivity|]. discriminate. Qed.

Lemma extractReadme_fails_iff_witness :
  let blocks := collected (marked_lexer (Externals := exampleExternals)
                             (content (file_at 7 indented_doc))) in
  ((exists e, Shell.extractReadme (H := exampleExternals) indented_fs
                (lit "/work/README.md") None = Err e) <->
   (Exists (fun b => ~ isJs b) blocks \/ Nat.Odd (length blocks)))
  /\ (forall e, Shell.extractReadme (H := exampleExternals) indented_fs
                  (lit "/work/README.md") None = Err e ->
                isMalformedDoc e = true)
  /\ (~ (Exists (fun b => ~ isJs b) blocks \/ Nat.Odd (length blocks)) ->
      exists transforms,
        Shell.extractReadme (H := exampleExternals) indented_fs
          (lit "/work/README.md") None = Ok transforms).
Proof.
  apply (extractReadme_fails_iff (H := exampleExternals) indented_fs
           (lit "/work/README.md") None None (file_at 7 indented_doc)).
  - reflexivity.
  - reflexivity.
Defined.

Lemma extractDependency_keeps_namespace_witness :
  Shell.extractDependency (H := exampleExternals) app_fs (lit "acme/widgets")
    (lit "1.0.0") (lit "/home/.elm/0.19.1/packages") =
  Ok (pairs (map (fun text => Shell.spacesToTabs text "    ")
                 [lit "var $acme$widgets$foo = 1;"; lit "var $acme$widgets$foo = 2;"])).
Proof.
  apply (extractDependency_keeps_namespace (H := exampleExternals) app_fs
           (lit "acme/widgets") (lit "1.0.0") (lit "/home/.elm/0.19.1/packages")
           (lit "acme") (lit "widgets") [] (file_at 5 widgets_doc)
           [lit "var $acme$widgets$foo = 1;"; lit "var $acme$widgets$foo = 2;"]).
  - reflexivity.
  - reflexivity.
  - reflexivity.
  - exists 1. reflexivity.
Defined.

(** C5 as stated fails: the project [/work] lists the dependency
    [acme/widgets], whose documentation has a rule on [$acme$widgets$foo];
    the Transform extracted from it still has the prefix [$acme$widgets$],
    not the placeholder [$author$project$]. *)
Lemma extract_dependency_not_rewritten :
  Shell.extract (H := exampleExternals) app_fs (lit "/work") (lit "/home/.elm") false
  = Ok [{| find := lit "var $acme$widgets$foo = 1;";
           replace := lit "var $acme$widgets$foo = 2;" |}].
Proof. reflexivity. Qed.

(** ** Escaping and the compiled pattern *)

Lemma specialCharacter_word c :
  Shell.specialCharacter c = true -> isWordCharacter c = false.
Proof. destruct c as [[] [] [] [] [] [] [] []]; vm_compute; congruence. Qed.

Lemma unescaped_plain c :
  Shell.specialCharacter c = false ->
  Ascii.eqb c "\" = false /\ isSyntaxCharacter c = false.
Proof. destruct c as [[] [] [] [] [] [] [] []]; vm_compute; split; congruence. Qed.

Lemma lexPattern_escapeRegExp text rest tokens :
  lexPattern false rest = Some tokens ->
  lexPattern false (Shell.escapeRegExp text ++ rest) =
  Some (map PatternCharacter text ++ tokens).
Proof.
  intros Hrest. induction text as [|c text IH]; [done|].
  unfold Shell.escapeRegExp in *. cbn [flat_map map].
  destruct (Shell.specialCharacter c) eqn:Hc.
  - cbn [app lexPattern]. change (Ascii.eqb "\" "\") with true. cbv iota.
    rewrite (specialCharacter_word c Hc), IH. done.
  - destruct (unescaped_plain c Hc) as [Hb Hs].
    cbn [app lexPattern]. rewrite Hb, Hs, IH. done.
Qed.

Lemma join_cons2 sep (a b : str) (l : list str) :
  join sep (a :: b :: l) = a ++ sep ++ join sep (b :: l).
Proof. done. Qed.

Lemma disjunctionTokens_cons2 a b l :
  disjunctionTokens (a :: b :: l) =
  map PatternCharacter a ++ SyntaxCharacter "|" :: disjunctionTokens (b :: l).
Proof. done. Qed.

Lemma lexPattern_join texts rest tokens :
  lexPattern false rest = Some tokens ->
  lexPattern false (join "|" (map Shell.escapeRegExp texts) ++ rest) =
  Some (disjunctionTokens texts ++ tokens).
Proof.
  intros Hrest. induction texts as [|a [|b texts] IH].
  - done.
  - cbn [map join disjunctionTokens]. by apply lexPattern_escapeRegExp.
  - change (map Shell.escapeRegExp (a :: b :: texts))
      with (Shell.escapeRegExp a :: Shell.escapeRegExp b :: map Shell.escapeRegExp texts).
    rewrite join_cons2, disjunctionTokens_cons2.
    rewrite <- !app_assoc. apply lexPattern_escapeRegExp.
    cbn [lit list_ascii_of_string app lexPattern].
    change (Ascii.eqb "|" "\") with false. cbv iota.
    change (isSyntaxCharacter "|") with true. cbv iota.
    change (Shell.escapeRegExp b :: map Shell.escapeRegExp texts)
      with (map Shell.escapeRegExp (b :: texts)).
    cbn [lit list_ascii_of_string] in IH. rewrite IH. done.
Qed.

Lemma parseAlternatives_literal text tokens alt alts :
  parseAlternatives tokens = Some (alt :: alts) ->
  parseAlternatives (map PatternCharacter text ++ tokens) =
  Some ((text ++ alt) :: alts).
Proof.
  intros Htok. induction text as [|c text IH]; [done|].
  cbn [map app parseAlternatives]. by rewrite IH.
Qed.

Lemma parseAlternatives_disjunction texts :
  parseAlternatives (disjunctionTokens texts) = Some (compiledAlternatives texts).
Proof.
  induction texts as [|a [|b texts] IH].
  - done.
  - cbn [disjunctionTokens compiledAlternatives].
    rewrite <- (app_nil_r (map PatternCharacter a)).
    rewrite (parseAlternatives_literal a [] [] []); [|done].
    by rewrite app_nil_r.
  - rewrite disjunctionTokens_cons2.
    rewrite (parseAlternatives_literal a _ [] (b :: texts)).
    + by rewrite app_nil_r.
    + cbn [parseAlternatives]. change (Ascii.eqb "|" "|") with true. cbv iota.
      by rewrite IH.
Qed.

Lemma parseRegExp_compiled texts :
  parseRegExp (lit "(" ++ join "|" (map Shell.escapeRegExp texts) ++ lit ")") =
  Some {| alternatives := compiledAlternatives texts |}.
Proof.
  unfold parseRegExp.
  pose proof (lexPattern_join texts (lit ")") [SyntaxCharacter ")"] eq_refl) as Hlex.
  change (lit "(" ++ join "|" (map Shell.escapeRegExp texts) ++ lit ")")
    with ("("%char :: (join "|" (map Shell.escapeRegExp texts) ++ lit ")")).
  cbn [lexPattern].
  change (Ascii.eqb "(" "\") with false. cbv iota.
  change (isSyntaxCharacter "(") with true. cbv iota.
  rewrite Hlex.
  cbn [fmap option_fmap option_map mbind option_bind parseDisjunction].
  rewrite rev_app_distr. cbn [rev app]. rewrite rev_involutive.
  by rewrite parseAlternatives_disjunction.
Qed.

(** ** Rule application *)

Lemma startsWith_true a s : startsWith a s = true -> exists post, s = a ++ post.
Proof.
  revert s. induction a as [|p a IH]; intros s Hs; [by exists s|].
  destruct s as [|c s]; [done|]. cbn in Hs.
  apply andb_true_iff in Hs as [Hpc Hs]. apply Ascii.eqb_eq in Hpc as ->.
  destruct (IH s Hs) as [post ->]. by exists post.
Qed.

Lemma regexReplaceFrom_ext alts f g skip s :
  (forall m, f m = g m) ->
  regexReplaceFrom alts f skip s = regexReplaceFrom alts g skip s.
Proof.
  intros Hfg. revert skip.
  induction s as [|c s IH]; intros [|k]; cbn [regexReplaceFrom]; try done.
  - destruct (List.find _ alts) as [m|]; [|done]. rewrite Hfg. by destruct m.
  - destruct (List.find _ alts) as [m|].
    + rewrite Hfg. destruct m; by rewrite IH.
    + by rewrite IH.
Qed.

Lemma regexReplaceFrom_ext_in alts f g skip s :
  (forall m, In m alts -> f m = g m) ->
  regexReplaceFrom alts f skip s = regexReplaceFrom alts g skip s.
Proof.
  intros Hfg. revert skip.
  induction s as [|c s IH]; intros [|k]; cbn [regexReplaceFrom]; try done.
  - destruct (List.find _ alts) as [m|] eqn:Hfind; [|done].
    apply find_some in Hfind as [Hin _]. rewrite (Hfg m Hin). by destruct m.
  - destruct (List.find _ alts) as [m|] eqn:Hfind.
    + apply find_some in Hfind as [Hin _]. rewrite (Hfg m Hin).
      destruct m; by rewrite IH.
    + by rewrite IH.
Qed.

Lemma regexReplaceFrom_no_match alts f pre s :
  (forall a, In a alts -> ~ occursIn a (pre ++ s)) ->
  regexReplaceFrom alts f 0 s = s.
Proof.
  revert pre. induction s as [|c s IH]; intros pre Hno.
  - cbn. destruct (List.find _ alts) as [m|] eqn:Hfind; [|done].
    apply find_some in Hfind as [Hin Hm]. exfalso. apply (Hno m Hin).
    destruct (startsWith_true _ _ Hm) as [post ->]. by exists pre, post.
  - cbn [regexReplaceFrom].
    destruct (List.find _ alts) as [m|] eqn:Hfind.
    + apply find_some in Hfind as [Hin Hm]. exfalso. apply (Hno m Hin).
      destruct (startsWith_true _ _ Hm) as [post ->]. by exists pre, post.
    + f_equal. apply (IH (pre ++ [c])). intros a Ha.
      rewrite <- app_assoc. by apply Hno.
Qed.

Lemma regexReplaceFrom_empty f s :
  f [] = [] -> regexReplaceFrom [[]] f 0 s = s.
Proof.
  intros Hf. induction s as [|c s IH]; cbn; rewrite Hf; [done|].
  cbn. f_equal. exact IH.
Qed.

Section Transform.
Variable config : PostConfig.

Lemma transform_loop ts map patterns :
  fold_left (Shell.transform_rule config) ts (map, patterns) =
  (fold_left (fun m t => obj_set m (fmt t) (replacement config t)) ts map,
   patterns ++ List.map (fun t => Shell.escapeRegExp (fmt t)) ts).
Proof.
  revert map patterns. induction ts as [|t ts IH]; intros map patterns.
  - cbn. by rewrite app_nil_r.
  - cbn [fold_left List.map]. unfold Shell.transform_rule at 2.
    rewrite IH. by rewrite <- app_assoc.
Qed.

Lemma obj_lookup_loop ts matched :
  fold_left (fun m t => obj_set m (fmt t) (replacement config t)) ts ∅ !! matched =
  replacement config <$> List.find (fun t => bool_decide (fmt t = matched)) (rev ts).
Proof.
  induction ts as [|t ts IH] using rev_ind.
  - cbn. by rewrite lookup_empty.
  - rewrite fold_left_app, rev_app_distr. cbn [fold_left rev app List.find].
    unfold obj_set at 1.
    destruct (decide (fmt t = matched)) as [->|Hne].
    + by rewrite lookup_insert_eq, bool_decide_eq_true_2.
    + rewrite lookup_insert_ne, bool_decide_eq_false_2 by done. exact IH.
Qed.

Lemma obj_get_loop ts matched :
  In matched (compiledAlternatives (List.map fmt ts)) ->
  orElse (obj_get (fold_left (fun m t => obj_set m (fmt t) (replacement config t))
                             ts ∅) matched) matched =
  replacementFor config ts matched.
Proof.
  intros Hin. unfold replacementFor, obj_get. rewrite obj_lookup_loop.
  destruct (List.find _ (rev ts)) as [t|] eqn:Hfind; [done|].
  cbn [fmap option_fmap option_map].
  destruct ts as [|t ts].
  - destruct Hin as [<-|[]]. reflexivity.
  - exfalso. cbn [compiledAlternatives] in Hin.
    apply in_map_iff in Hin as (t' & Hfmt & Hin').
    assert (Hnone : bool_decide (fmt t' = matched) = false).
    { apply (find_none _ _ Hfind t'). by apply in_rev in Hin'. }
    by rewrite bool_decide_eq_true_2 in Hnone.
Qed.

Lemma transform_spec content :
  Shell.transform content config =
  Ok (regexReplaceFrom (compiledAlternatives (List.map fmt (transformations config)))
        (replacementFor config (transformations config)) 0 content).
Proof.
  unfold Shell.transform. rewrite transform_loop. cbn [app].
  rewrite <- (map_map fmt Shell.escapeRegExp).
  unfold newRegExp. rewrite parseRegExp_compiled.
  cbn. unfold regexReplaceAll. cbn [alternatives]. f_equal.
  apply regexReplaceFrom_ext_in. intros matched Hin. by apply obj_get_loop.
Qed.

Lemma transform_no_occurrence content :
  (forall t, In t (transformations config) -> ~ occursIn (fmt t) content) ->
  Shell.transform content config = Ok content.
Proof.
  intros Hno. rewrite transform_spec. f_equal.
  destruct (transformations config) as [|t ts] eqn:Hts.
  - apply regexReplaceFrom_empty. done.
  - apply (regexReplaceFrom_no_match _ _ []). intros a Ha.
    apply in_map_iff in Ha as (t' & <- & Hin). by apply Hno.
Qed.
End Transform.

Lemma includes_occursIn pat s : includes pat s = true <-> occursIn pat s.
Proof.
  split.
  - induction s as [|c s IH]; cbn [includes]; intros Hinc.
    + rewrite orb_false_r in Hinc.
      destruct (startsWith_true _ _ Hinc) as [post ->]. by exists [], post.
    + apply orb_true_iff in Hinc as [Hs|Hinc].
      * destruct (startsWith_true _ _ Hs) as [post ->]. by exists [], post.
      * destruct (IH Hinc) as (pre & post & ->). by exists (c :: pre), post.
  - intros (pre & post & ->).
    induction pre as [|c pre IH].
    + cbn [app]. destruct (pat ++ post) eqn:Heq; cbn [includes];
        rewrite <- Heq, startsWith_app; done.
    + cbn [app includes]. rewrite IH. apply orb_true_r.
Qed.

Lemma transform_unchanged config content :
  forallb (fun t => negb (includes (fmt t) content)) (transformations config) = true ->
  Shell.transform content config = Ok content.
Proof.
  intros Hall. apply transform_no_occurrence. intros t Hin Hocc.
  rewrite forallb_forall in Hall. specialize (Hall t Hin).
  apply includes_occursIn in Hocc. rewrite Hocc in Hall. done.
Qed.

Lemma transform_patterns config :
  (fold_left (Shell.transform_rule config) (transformations config) (∅, [])).2 =
  map (fun t => Shell.escapeRegExp (fmt t)) (transformations config).
Proof. by rewrite transform_loop. Qed.

(** C3, as the code has it.  The rule set of the one rule [X] to [Y] turns
    [aXbXc] into [aYbYc].  A rule set none of whose normalised find texts
    (the find text with a tab for every two spaces of the white space that
    begins a line) occurs in the source leaves the source as it is.  Every
    normalised find text is escaped on its own: its escaped form reads as
    pattern characters only, and the pattern compiled from a rule set is the
    disjunction of exactly the normalised find texts, as literals and in the
    order of the rules. *)
Theorem transform_substitution :
  (forall m d t,
     Shell.transform (lit "aXbXc")
       {| module := m; debug := d; test := t;
          transformations := [{| find := lit "X"; replace := lit "Y" |}] |}
     = Ok (lit "aYbYc"))
  /\ (forall content config,
        forallb (fun t => negb (includes (fmt t) content))
                (transformations config) = true ->
        Shell.transform content config = Ok content)
  /\ (forall text,
        lexPattern false (Shell.escapeRegExp text) = Some (map PatternCharacter text))
  /\ (forall config,
        let patterns :=
          (fold_left (Shell.transform_rule config) (transformations config) (∅, [])).2 in
        patterns = map (fun t => Shell.escapeRegExp (fmt t)) (transformations config)
        /\ newRegExp (lit "(" ++ join "|" patterns ++ lit ")") =
           Ok {| alternatives :=
                   compiledAlternatives (map fmt (transformations config)) |}).
Proof.
  split; [intros; reflexivity|].
  split; [intros; by apply transform_unchanged|].
  split.
  - intros text.
    pose proof (lexPattern_escapeRegExp text [] [] eq_refl) as Hlex.
    by rewrite !app_nil_r in Hlex.
  - intros config patterns. subst patterns. rewrite transform_patterns.
    split; [done|].
    rewrite <- (map_map fmt Shell.escapeRegExp).
    unfold newRegExp. by rewrite parseRegExp_compiled.
Qed.

Lemma transform_substitution_witness :
  Shell.transform (lit "abc") (with_rules [{| find := lit "X"; replace := lit "Y" |}])
  = Ok (lit "abc").
Proof.
  apply (proj1 (proj2 transform_substitution) (lit "abc")
           (with_rules [{| find := lit "X"; replace := lit "Y" |}])).
  reflexivity.
Defined.

(** C3 as stated fails: the find text of two spaces and [X] does not occur
    in the source of a tab and [X], and the source is rewritten all the
    same. *)
Lemma transform_matches_normalised_find :
  includes (lit "  X") (TAB :: lit "X") = false
  /\ Shell.transform (TAB :: lit "X")
       (with_rules [{| find := lit "  X"; replace := lit "Y" |}])
     = Ok (lit "Y").
Proof. split; reflexivity. Qed.

(** ** The rules handed to [elm] *)

Lemma pushAll_app {A} (acc ts : list A) : pushAll acc ts = acc ++ ts.
Proof.
  unfold pushAll. revert acc.
  induction ts as [|t ts IH]; intros acc; cbn [fold_left].
  - by rewrite app_nil_r.
  - rewrite IH. by rewrite <- app_assoc.
Qed.

Lemma regexReplaceFrom_skip alts f k s :
  k <= length s ->
  regexReplaceFrom alts f k s = regexReplaceFrom alts f 0 (drop k s).
Proof.
  revert s. induction k as [|k IH]; intros s Hk; [by rewrite drop_0|].
  destruct s as [|c s]; [cbn in Hk; lia|].
  cbn [regexReplaceFrom drop]. apply IH. cbn in Hk. lia.
Qed.

Lemma regexReplaceFrom_first alts f a s :
  a <> [] ->
  startsWith a s = true ->
  regexReplaceFrom (a :: alts) f 0 s =
  f a ++ regexReplaceFrom (a :: alts) f 0 (drop (length a) s).
Proof.
  intros Ha Hs. destruct a as [|p a]; [done|].
  destruct s as [|c s]; [done|].
  cbn [regexReplaceFrom List.find]. rewrite Hs.
  rewrite regexReplaceFrom_skip; [done|].
  destruct (startsWith_true _ _ Hs) as [post Heq].
  injection Heq as _ ->. rewrite length_app. lia.
Qed.

Lemma replacementFor_last config ts c :
  replacementFor config (ts ++ [c]) (fmt c) = replacement config c.
Proof.
  unfold replacementFor.
  rewrite rev_app_distr. cbn [rev app List.find].
  by rewrite bool_decide_eq_true_2.
Qed.

Lemma find_app_none {A} (p : A -> bool) l1 l2 :
  forallb (fun a => negb (p a)) l1 = true ->
  List.find p (l1 ++ l2) = List.find p l2.
Proof.
  induction l1 as [|x l1 IH]; [done|]. cbn [forallb app List.find].
  intros Hall. apply andb_true_iff in Hall as [Hx Hall].
  apply negb_true_iff in Hx. rewrite Hx. by apply IH.
Qed.

Lemma regexReplaceFrom_first_match before a after f s :
  forallb (fun b => negb (startsWith b s)) before = true ->
  a <> [] ->
  startsWith a s = true ->
  regexReplaceFrom (before ++ a :: after) f 0 s =
  f a ++ regexReplaceFrom (before ++ a :: after) f 0 (drop (length a) s).
Proof.
  intros Hbefore Ha Hs. destruct a as [|p a]; [done|].
  destruct s as [|c s]; [done|].
  cbn [regexReplaceFrom].
  rewrite (find_app_none (fun b => startsWith b (c :: s))) by done.
  cbn [List.find]. rewrite Hs.
  rewrite regexReplaceFrom_skip; [done|].
  destruct (startsWith_true _ _ Hs) as [post Heq].
  injection Heq as _ ->. rewrite length_app. lia.
Qed.

Section XelmCall.
Context `{Externals}.

(** C10, as the code has it.  The rules handed to [elm] are the rules
    extracted from the documentation followed by the rules of the caller, in
    their order.  Compiled from such a sequence, the alternation takes at
    each position the first rule of the sequence whose normalised find text
    is there, so a rule of the documentation is tried before the rules of
    the caller; the text matched is replaced by the replacement of the last
    rule with that normalised find text, so a rule of the caller overrides
    the replacement of a rule of the documentation with the same find
    text. *)
Theorem xelm_transformation_order fs now inputs output options extracted fs' :
  Shell.extractWithCache fs now
    (default Deno_cwd (options ≫= opt_projectRoot))
    (default DEFAULT_ELM_HOME (options ≫= opt_elmHome))
    (default false (options ≫= opt_test))
    (default false (options ≫= opt_refresh)) = (Ok extracted, fs') ->
  (exists call,
     Shell.xelm fs now inputs output options = (Ok call, fs')
     /\ opt_transformations (call_options call) =
        Some (extracted ++ default [] (options ≫= opt_transformations)))
  /\ (forall content config,
        Shell.transform content config =
        Ok (regexReplaceFrom
              (compiledAlternatives (map fmt (transformations config)))
              (replacementFor config (transformations config)) 0 content))
  /\ (forall f before (rule : Transform) after content,
        forallb (fun t => negb (startsWith (fmt t) content)) before = true ->
        fmt rule <> [] ->
        startsWith (fmt rule) content = true ->
        regexReplaceFrom (compiledAlternatives (map fmt (before ++ rule :: after)))
          f 0 content =
        f (fmt rule) ++
        regexReplaceFrom (compiledAlternatives (map fmt (before ++ rule :: after)))
          f 0 (drop (length (fmt rule)) content))
  /\ (forall config rules last,
        replacementFor config (rules ++ [last]) (fmt last) =
        replacement config last).
Proof.
  intros Hcache. split; [|split; [|split]].
  - unfold Shell.xelm. rewrite Hcache. cbn.
    eexists. split; [reflexivity|]. cbn.
    destruct (options ≫= opt_transformations) as [ts|]; cbn.
    + by rewrite pushAll_app.
    + by rewrite app_nil_r.
  - intros. apply transform_spec.
  - intros f before rule after content Hbefore Hne Hs.
    rewrite map_app. cbn [map].
    assert (Halts : compiledAlternatives (map fmt before ++ fmt rule :: map fmt after) =
                    map fmt before ++ fmt rule :: map fmt after)
      by (by destruct (map fmt before)).
    rewrite Halts. apply regexReplaceFrom_first_match; [|done|done].
    rewrite forallb_forall in *. intros b Hb.
    apply in_map_iff in Hb as (t & <- & Ht). by apply Hbefore.
  - intros. apply replacementFor_last.
Qed.

(** [xelm] is the same in [src/xelm.ts]. *)
Lemma Xelm_xelm_transformation_order fs now inputs output options extracted fs' :
  Xelm.extractWithCache fs now
    (default Deno_cwd (options ≫= opt_projectRoot))
    (default DEFAULT_ELM_HOME (options ≫= opt_elmHome))
    (default false (options ≫= opt_test))
    (default false (options ≫= opt_refresh)) = (Ok extracted, fs') ->
  exists call,
    Xelm.xelm fs now inputs output options = (Ok call, fs')
    /\ opt_transformations (call_options call) =
       Some (extracted ++ default [] (options ≫= opt_transformations)).
Proof.
  intros Hcache. unfold Xelm.xelm. rewrite Hcache. cbn.
  eexists. split; [reflexivity|]. cbn.
  destruct (options ≫= opt_transformations) as [ts|]; cbn.
  - by rewrite pushAll_app.
  - by rewrite app_nil_r.
Qed.
End XelmCall.

Lemma xelm_transformation_order_witness :
  (exists call,
     Shell.xelm (H := ruleExternals) rule_fs 20 [] (lit "out.js") (Some caller_options)
       = (Ok call,
          writeTextFile rule_fs 20 (lit "/work/elm-stuff/transformations.json")
            (lit "[]"))
     /\ opt_transformations (call_options call) =
        Some ([{| find := lit "X"; replace := lit "R" |}] ++
              default [] (Some caller_options ≫= opt_transformations))).
Proof.
  apply (xelm_transformation_order (H := ruleExternals) rule_fs 20 []
           (lit "out.js") (Some caller_options)
           [{| find := lit "X"; replace := lit "R" |}]
           (writeTextFile rule_fs 20 (lit "/work/elm-stuff/transformations.json")
              (lit "[]"))).
  reflexivity.
Defined.

(** C10 as stated fails where the find texts are the same: the documentation
    of the project has the rule [X] to [R], the caller supplies [X] to [C],
    the rules handed to [elm] are these two in this order, and [X] is
    rewritten to [C].  It also fails where a later rule matches further to
    the left: with [bc] to [R] before [ab] to [C], the text [abc] becomes
    [Cc]. *)
Lemma xelm_caller_rule_overrides :
  (exists call fs',
     Shell.xelm (H := ruleExternals) rule_fs 20 [] (lit "out.js") (Some caller_options)
       = (Ok call, fs')
     /\ opt_transformations (call_options call) =
        Some [{| find := lit "X"; replace := lit "R" |};
              {| find := lit "X"; replace := lit "C" |}])
  /\ Shell.transform (lit "X")
       (with_rules [{| find := lit "X"; replace := lit "R" |};
                    {| find := lit "X"; replace := lit "C" |}])
     = Ok (lit "C")
  /\ Shell.transform (lit "abc")
       (with_rules [{| find := lit "bc"; replace := lit "R" |};
                    {| find := lit "ab"; replace := lit "C" |}])
     = Ok (lit "Cc").
Proof.
  split; [|split; reflexivity].
  eexists _, _. split; reflexivity.
Qed.

(** ** The namespace rewrite *)

Lemma regex_single_replaceAll pat rep skip s :
  pat <> [] ->
  regexReplaceFrom [pat] (fun _ => rep) skip s = replaceAllFrom pat rep skip s.
Proof.
  intros Hpat. destruct pat as [|p pat]; [done|]. clear Hpat.
  revert skip. induction s as [|c s IH]; intros [|k]; try done.
  - cbn [regexReplaceFrom replaceAllFrom List.find].
    destruct (startsWith (p :: pat) (c :: s)); by rewrite IH.
  - cbn [regexReplaceFrom replaceAllFrom]. apply IH.
Qed.

Lemma regex_single_first pat f pre rest :
  pat <> [] ->
  includes pat (pre ++ removelast pat) = false ->
  regexReplaceFrom [pat] f 0 (pre ++ pat ++ rest) =
  pre ++ f pat ++ regexReplaceFrom [pat] f 0 rest.
Proof.
  intros Hpat. induction pre as [|c pre IH]; intros Hinc.
  - cbn [app]. rewrite regexReplaceFrom_first by (done || apply startsWith_app).
    by rewrite drop_app_length.
  - cbn [app includes] in Hinc. apply orb_false_iff in Hinc as [Hhere Hlater].
    cbn [app regexReplaceFrom List.find].
    assert (Hno : startsWith pat (c :: pre ++ pat ++ rest) = false).
    { destruct (startsWith pat (c :: pre ++ pat ++ rest)) eqn:Hs; [|done].
      pose proof (app_removelast_last "000"%char Hpat) as Hsplit.
      assert (Hlen : length pat = S (length (removelast pat))).
      { rewrite Hsplit at 1. rewrite length_app. cbn. lia. }
      assert (Heq : c :: pre ++ pat ++ rest =
                    ((c :: pre) ++ removelast pat) ++
                    ([List.last pat "000"%char] ++ rest)).
      { rewrite Hsplit at 1. cbn [app]. by rewrite <- !app_assoc. }
      rewrite <- Hhere. symmetry. apply startsWith_take.
      apply startsWith_take in Hs. rewrite Heq in Hs.
      rewrite take_app_le in Hs; [exact Hs|].
      rewrite length_app. cbn [length]. lia. }
    rewrite Hno. f_equal. by apply IH.
Qed.

(** C8, as the code has it.  The matcher built for [acme/widgets] is the literal
    [$acme$widgets$].  Rewriting a text with it is replacing every
    occurrence of that prefix by [$author$project$], the occurrences being
    those of [String.replaceAll], from left to right and without overlap:
    [$acme$widgets$foo] becomes [$author$project$foo], also inside a text,
    and a text in which the prefix does not occur is returned as it is. *)
Theorem namespace_rewrite :
  exists regExp,
    Shell.getNamespace (lit "acme/widgets") = Ok regExp
    /\ alternatives regExp = [ACME_WIDGETS]
    /\ (forall text,
          Shell.rewriteNamespace (Some regExp) text =
          replaceAll ACME_WIDGETS NAMESPACE_PLACEHOLDER text)
    /\ Shell.rewriteNamespace (Some regExp) (lit "$acme$widgets$foo")
       = lit "$author$project$foo"
    /\ (forall pre post,
          includes ACME_WIDGETS (pre ++ removelast ACME_WIDGETS) = false ->
          Shell.rewriteNamespace (Some regExp) (pre ++ lit "$acme$widgets$foo" ++ post) =
          pre ++ lit "$author$project$foo" ++ Shell.rewriteNamespace (Some regExp) post)
    /\ (forall text,
          includes ACME_WIDGETS text = false ->
          Shell.rewriteNamespace (Some regExp) text = text).
Proof.
  exists {| alternatives := [ACME_WIDGETS] |}.
  split; [reflexivity|]. split; [reflexivity|].
  unfold Shell.rewriteNamespace, regexReplaceAll. cbn [alternatives].
  split; [|split; [reflexivity|split]].
  - intros text. by apply regex_single_replaceAll.
  - intros pre post Hinc.
    change (lit "$acme$widgets$foo" ++ post)
      with (ACME_WIDGETS ++ (lit "foo" ++ post)).
    rewrite regex_single_first by done.
    reflexivity.
  - intros text Hinc. apply (regexReplaceFrom_no_match _ _ []).
    intros a [<-|[]] Hocc. apply includes_occursIn in Hocc. cbn [app] in Hocc.
    congruence.
Qed.

Lemma namespace_rewrite_witness :
  exists regExp,
    Shell.getNamespace (lit "acme/widgets") = Ok regExp
    /\ Shell.rewriteNamespace (Some regExp)
         (lit "var x = " ++ lit "$acme$widgets$foo" ++ lit ";")
       = lit "var x = " ++ lit "$author$project$foo"
         ++ Shell.rewriteNamespace (Some regExp) (lit ";")
    /\ Shell.rewriteNamespace (Some regExp) (lit "$elm$core$foo") = lit "$elm$core$foo".
Proof.
  destruct namespace_rewrite as (regExp & Hns & _ & _ & _ & Hfirst & Hnone).
  exists regExp. split; [exact Hns|]. split.
  - apply (Hfirst (lit "var x = ") (lit ";")). reflexivity.
  - apply (Hnone (lit "$elm$core$foo")). reflexivity.
Defined.

(** C8 as stated fails where two occurrences of the prefix overlap: the
    text [$acme$widgets$acme$widgets$foo] contains [$acme$widgets$foo], and
    after the rewrite it still does. *)
Lemma namespace_rewrite_overlap :
  exists regExp,
    Shell.getNamespace (lit "acme/widgets") = Ok regExp
    /\ includes (lit "$acme$widgets$foo") (lit "$acme$widgets$acme$widgets$foo") = true
    /\ Shell.rewriteNamespace (Some regExp) (lit "$acme$widgets$acme$widgets$foo")
       = lit "$author$project$acme$widgets$foo"
    /\ includes (lit "$acme$widgets$foo") (lit "$author$project$acme$widgets$foo")
       = true.
Proof. eexists. split; [reflexivity|]. split; [|split]; reflexivity. Qed.

(** ** The transformation cache *)

Lemma Time_gt_max a b (c : Z) :
  Time_gt (Time_max a b) (Finite c) = Time_gt a (Finite c) || Time_gt b (Finite c).
Proof.
  destruct a as [x|], b as [y|]; cbn; try done; [|by rewrite orb_true_r].
  destruct (Z.ltb_spec c x), (Z.ltb_spec c y), (Z.ltb_spec c (Z.max x y)); try done; lia.
Qed.

Lemma getModificationTime_source fs filePath :
  getModificationTime fs filePath Infinity = sourceTime fs filePath.
Proof.
  unfold getModificationTime, sourceTime.
  destruct (fs !! filePath) as [f|]; [|done]. cbn. by destruct (mtime f).
Qed.

Lemma getModificationTime_artifact fs filePath :
  getModificationTime fs filePath (Finite 0) = Finite (artifactTime fs filePath).
Proof.
  unfold getModificationTime, artifactTime.
  destruct (fs !! filePath) as [f|]; [|done]. cbn. by destruct (mtime f).
Qed.

Lemma needsCacheRefresh_stale fs projectRoot artifact :
  needsCacheRefresh fs projectRoot artifact = stale fs projectRoot artifact.
Proof.
  unfold needsCacheRefresh, stale, exists_, isModifiedAfter.
  rewrite !getModificationTime_source, getModificationTime_artifact, Time_gt_max.
  destruct (fs !! artifact) as [f|] eqn:Hf.
  - rewrite bool_decide_eq_true_2 by (by eexists).
    by rewrite bool_decide_eq_false_2.
  - rewrite bool_decide_eq_false_2 by (by intros [? ?]).
    by rewrite bool_decide_eq_true_2.
Qed.

Section Cache.
Context `{Externals}.

(** C4.  [extractWithCache] recomputes the rule set, and persists it, exactly
    when a refresh is forced or the cache is stale; otherwise it returns the
    persisted artifact, deserialised, and leaves the files as they are.  The
    cache is stale exactly when the artifact is missing or [elm.json] or
    [README.md] has a modification time greater than that of the artifact,
    where a missing source counts as [+infinity] and so is always stale. *)
Theorem extractWithCache_refresh fs now projectRoot elmHome test refresh :
  let artifact := Xelm.transformationsFile projectRoot test in
  Xelm.extractWithCache fs now projectRoot elmHome test refresh =
    (if refresh || stale fs projectRoot artifact then
       match Xelm.extract fs projectRoot elmHome test with
       | Ok transformations =>
           (Ok transformations,
            writeTextFile fs now artifact (JSON_stringify transformations))
       | Err e => (Err e, fs)
       end
     else (readTextFile fs artifact ≫= JSON_parse_Transforms, fs))
  /\ (stale fs projectRoot artifact = true <->
      fs !! artifact = None
      \/ Time_gt (sourceTime fs (path_join [projectRoot; ELM_JSON]))
                 (Finite (artifactTime fs artifact)) = true
      \/ Time_gt (sourceTime fs (path_join [projectRoot; README_MD]))
                 (Finite (artifactTime fs artifact)) = true)
  /\ (forall source ms, fs !! source = None ->
        sourceTime fs source = Infinity
        /\ Time_gt (sourceTime fs source) (Finite ms) = true)
  /\ (forall file, fs !! artifact = Some file ->
        readTextFile fs artifact ≫= JSON_parse_Transforms =
        JSON_parse_Transforms (content file)).
Proof.
  intros artifact. split; [|split; [|split]].
  - unfold Xelm.extractWithCache. fold artifact.
    rewrite needsCacheRefresh_stale.
    destruct refresh; cbn [orb negb]; [done|].
    by destruct (stale fs projectRoot artifact).
  - unfold stale. rewrite Time_gt_max, !orb_true_iff, bool_decide_eq_true. done.
  - intros source ms Hmissing. unfold sourceTime. by rewrite Hmissing.
  - intros file Hfile. unfold readTextFile. by rewrite Hfile.
Qed.
End Cache.

Lemma extractWithCache_refresh_witness :
  sourceTime rule_fs (lit "/work/missing.md") = Infinity
  /\ Time_gt (sourceTime rule_fs (lit "/work/missing.md")) (Finite 100) = true.
Proof.
  apply (proj1 (proj2 (proj2 (extractWithCache_refresh (H := ruleExternals)
           rule_fs 20 (lit "/work") (lit "/home/.elm") false false)))
           (lit "/work/missing.md") 100%Z).
  reflexivity.
Defined.

(** The two cases of the staleness check on a project whose sources have
    the times 7 and 10.  An artifact of time 50 is returned as it is
    persisted, although the documentation now yields another rule set; an
    artifact of time 5 is older than [elm.json], and the rule set is
    extracted again and persisted. *)
Example cache_fresh :
  Xelm.extractWithCache (H := ruleExternals) (cached_fs 50) 60
    (lit "/work") (lit "/home/.elm") false false
  = (Ok cached_rules, cached_fs 50).
Proof. reflexivity. Qed.

Example cache_stale :
  Xelm.extractWithCache (H := ruleExternals) (cached_fs 5) 60
    (lit "/work") (lit "/home/.elm") false false
  = (Ok [{| find := lit "X"; replace := lit "R" |}],
     writeTextFile (cached_fs 5) 60 (lit "/work/elm-stuff/transformations.json")
       (lit "[]")).
Proof. reflexivity. Qed.

Example cache_forced :
  Xelm.extractWithCache (H := ruleExternals) (cached_fs 50) 60
    (lit "/work") (lit "/home/.elm") false true
  = (Ok [{| find := lit "X"; replace := lit "R" |}],
     writeTextFile (cached_fs 50) 60 (lit "/work/elm-stuff/transformations.json")
       (lit "[]")).
Proof. reflexivity. Qed.

(** ** The paths of the cache artifacts *)

Lemma join_snoc sep (parts : list str) (l : str) :
  exists k, join sep (parts ++ [l]) = k ++ l.
Proof.
  induction parts as [|p parts [k IH]]; [by exists []|].
  cbn [app]. destruct (parts ++ [l]) as [|q qs] eqn:Hq.
  - by destruct parts.
  - exists (p ++ sep ++ k).
    change (join sep (p :: q :: qs)) with (p ++ sep ++ join sep (q :: qs)).
    by rewrite IH, <- !app_assoc.
Qed.

Lemma path_join_last (parts : list str) (l : str) :
  l <> [] -> exists k, path_join (parts ++ [l]) = k ++ l.
Proof.
  intros Hl. unfold path_join.
  rewrite (filter_app (fun p : str => p <> [])). cbn [filter list_filter].
  destruct (decide (l <> [])) as [_|Hn]; [|done].
  destruct (filter _ parts ++ [l]) as [|q qs] eqn:Hq.
  - by destruct (filter _ parts).
  - rewrite <- Hq. apply join_snoc.
Qed.

Lemma ends_differ (k1 k2 l1 l2 : str) n :
  n <= length l1 -> n <= length l2 ->
  take n (rev l1) <> take n (rev l2) ->
  k1 ++ l1 <> k2 ++ l2.
Proof.
  intros H1 H2 Hne Heq. apply Hne.
  apply (f_equal (fun s => take n (rev s))) in Heq.
  rewrite !rev_app_distr in Heq.
  rewrite !take_app_le in Heq by (by rewrite length_rev). exact Heq.
Qed.

(** Two joined paths differ when their last parts end differently. *)
Lemma path_join_differ (parts1 parts2 : list str) (l1 l2 : str) n :
  0 < n -> n <= length l1 -> n <= length l2 ->
  take n (rev l1) <> take n (rev l2) ->
  path_join (parts1 ++ [l1]) <> path_join (parts2 ++ [l2]).
Proof.
  intros Hn H1 H2 Hne.
  destruct (path_join_last parts1 l1) as [k1 ->]; [by destruct l1; cbn in *; [lia|]|].
  destruct (path_join_last parts2 l2) as [k2 ->]; [by destruct l2; cbn in *; [lia|]|].
  by apply (ends_differ _ _ _ _ n).
Qed.

Lemma transformationsFile_last projectRoot test :
  Xelm.transformationsFile projectRoot test =
  path_join ([projectRoot; ELM_STUFF] ++
             [if test then lit "transformations.test.json"
              else lit "transformations.json"]).
Proof. by destruct test. Qed.

Lemma artifact_not_source (parts : list str) (l : str) projectRoot test :
  l = ELM_JSON \/ l = README_MD ->
  path_join (parts ++ [l]) <> Xelm.transformationsFile projectRoot test.
Proof.
  intros Hl. rewrite transformationsFile_last.
  apply (path_join_differ _ _ _ _ 6); [lia|..];
    destruct Hl as [-> | ->], test; cbn; try lia; discriminate.
Qed.

Lemma artifacts_differ projectRoot test :
  Xelm.transformationsFile projectRoot test <>
  Xelm.transformationsFile projectRoot (negb test).
Proof.
  rewrite !transformationsFile_last.
  apply (path_join_differ _ _ _ _ 6); [lia|..]; destruct test; cbn; try lia;
    discriminate.
Qed.

(** What [extractWithCache] reads lies outside the artifact of the other
    mode. *)
Section Frame.
Context `{Externals}.
Variables (fs fs' : FS) (projectRoot : str) (mode : bool).
Let other := Xelm.transformationsFile projectRoot mode.
Hypothesis Hagree : forall p, p <> other -> fs' !! p = fs !! p.

Lemma extractReadme_frame filePath :
  filePath <> other ->
  Xelm.extractReadme fs' filePath = Xelm.extractReadme fs filePath.
Proof.
  intros Hp. unfold Xelm.extractReadme, exists_, readTextFile.
  by rewrite (Hagree _ Hp).
Qed.

Lemma extractDependency_frame dependency version directory :
  Xelm.extractDependency fs' dependency version directory =
  Xelm.extractDependency fs dependency version directory.
Proof.
  unfold Xelm.extractDependency.
  destruct (split "/" dependency !! 0) as [author|]; [|done].
  destruct (split "/" dependency !! 1) as [name|]; [|done].
  apply extractReadme_frame.
  apply (artifact_not_source [directory; author; name; version]). by right.
Qed.

Lemma extractDependencies_frame directory deps transformations :
  Xelm.extractDependencies fs' directory deps transformations =
  Xelm.extractDependencies fs directory deps transformations.
Proof.
  revert transformations.
  induction deps as [|[dep ver] deps IH]; intros transformations; [done|].
  cbn [Xelm.extractDependencies]. rewrite extractDependency_frame.
  destruct (Xelm.extractDependency fs dep ver directory); cbn; [apply IH|done].
Qed.

Lemma parseElmJson_frame filePath test :
  filePath <> other ->
  Xelm.parseElmJson fs' filePath test = Xelm.parseElmJson fs filePath test.
Proof.
  intros Hp. unfold Xelm.parseElmJson, exists_, readTextFile.
  by rewrite (Hagree _ Hp).
Qed.

Lemma extract_frame root elmHome test :
  Xelm.extract fs' root elmHome test = Xelm.extract fs root elmHome test.
Proof.
  unfold Xelm.extract.
  rewrite extractReadme_frame
    by (apply (artifact_not_source [root]); by right).
  destruct (Xelm.extractReadme fs _) as [transformations|]; cbn; [|done].
  rewrite parseElmJson_frame
    by (apply (artifact_not_source [root]); by left).
  destruct (Xelm.parseElmJson fs _ test) as [[version deps]|]; cbn; [|done].
  apply extractDependencies_frame.
Qed.

Lemma needsCacheRefresh_frame root artifact :
  artifact <> other ->
  needsCacheRefresh fs' root artifact = needsCacheRefresh fs root artifact.
Proof.
  intros Hp.
  unfold needsCacheRefresh, exists_, isModifiedAfter, getModificationTime.
  rewrite (Hagree _ Hp).
  rewrite (Hagree (path_join [root; ELM_JSON]))
    by (apply (artifact_not_source [root]); by left).
  rewrite (Hagree (path_join [root; README_MD]))
    by (apply (artifact_not_source [root]); by right).
  done.
Qed.
End Frame.

Section Artifacts.
Context `{Externals}.

(** C9, as the two revisions have it.  In [src/xelm.ts] the artifacts of
    the two modes of a project are two different paths,
    [transformations.json] and [transformations.test.json] in the directory
    [elm-stuff] of the project, and [extractWithCache] in one mode neither
    reads nor writes the artifact of the other mode: whatever is stored or
    missing at that path, the result is the same and the path is left as it
    was.  In the later revision there is one artifact,
    [transformations.json] in [elm-stuff], for both modes: in either mode
    [extractWithCache] decides on it whether the cache is stale, reads the
    rule set from it and persists the rule set to it. *)
Theorem cache_artifacts_by_revision fs now projectRoot elmHome test refresh :
  let other := Xelm.transformationsFile projectRoot (negb test) in
  let shared := path_join [projectRoot; ELM_STUFF; lit "transformations.json"] in
  Xelm.transformationsFile projectRoot false =
    path_join [projectRoot; ELM_STUFF; lit "transformations.json"]
  /\ Xelm.transformationsFile projectRoot true =
     path_join [projectRoot; ELM_STUFF; lit "transformations.test.json"]
  /\ Xelm.transformationsFile projectRoot true <>
     Xelm.transformationsFile projectRoot false
  /\ (forall stored : option File,
        Xelm.extractWithCache (partial_alter (fun _ => stored) other fs)
          now projectRoot elmHome test refresh =
        let '(r, fs') :=
          Xelm.extractWithCache fs now projectRoot elmHome test refresh in
        (r, partial_alter (fun _ => stored) other fs'))
  /\ Shell.extractWithCache fs now projectRoot elmHome test refresh =
     (if refresh || stale fs projectRoot shared then
        match Shell.extract fs projectRoot elmHome test with
        | Ok transformations =>
            (Ok transformations,
             writeTextFile fs now shared (JSON_stringify transformations))
        | Err e => (Err e, fs)
        end
      else (readTextFile fs shared ≫= JSON_parse_Transforms, fs)).
Proof.
  intros other shared. split; [done|]. split; [done|]. split; [|split].
  - apply (artifacts_differ projectRoot true).
  - intros stored.
    assert (Hagree : forall p, p <> other ->
              partial_alter (fun _ => stored) other fs !! p = fs !! p).
    { intros p Hp. by rewrite lookup_partial_alter_ne. }
    pose proof (artifacts_differ projectRoot test) as Hne. fold other in Hne.
    unfold Xelm.extractWithCache.
    rewrite (needsCacheRefresh_frame _ _ projectRoot (negb test) Hagree) by done.
    rewrite (extract_frame _ _ projectRoot (negb test) Hagree).
    destruct (negb (if refresh then refresh else _)).
    + unfold readTextFile. by rewrite (Hagree _ Hne).
    + destruct (Xelm.extract fs projectRoot elmHome test); [|done].
      f_equal. unfold writeTextFile, insert, map_insert.
      by apply partial_alter_partial_alter_ne.
  - unfold Shell.extractWithCache. fold shared.
    rewrite needsCacheRefresh_stale.
    destruct refresh; cbn [orb negb]; [done|].
    by destruct (stale fs projectRoot shared).
Qed.
End Artifacts.

(** C9 as stated fails in the later revision.  The project [/work] has a
    fresh artifact [elm-stuff/transformations.json].  The call in normal mode
    returns the rule set persisted there, and so does the call in test mode:
    it reads the same file, although the extraction of test mode would not
    even succeed in this project. *)
Lemma Shell_modes_share_artifact :
  Shell.extractWithCache (H := ruleExternals) (cached_fs 50) 60 (lit "/work")
    (lit "/home/.elm") false false = (Ok cached_rules, cached_fs 50)
  /\ Shell.extractWithCache (H := ruleExternals) (cached_fs 50) 60 (lit "/work")
       (lit "/home/.elm") true false = (Ok cached_rules, cached_fs 50)
  /\ cached_fs 50 !! lit "/work/elm-stuff/transformations.json"
     = Some (file_at 50 cached_text)
  /\ JSON_parse_Transforms (Externals := ruleExternals) cached_text = Ok cached_rules
  /\ exists e, Shell.extract (H := ruleExternals) (cached_fs 50) (lit "/work")
                 (lit "/home/.elm") true = Err e.
Proof.
  split; [reflexivity|]. split; [reflexivity|]. split; [reflexivity|].
  split; [reflexivity|]. eexists. reflexivity.
Qed.

(** The later revision keeps one artifact for both modes. *)
Lemma Shell_artifact_shared `{Externals} fs now projectRoot elmHome test :
  needsCacheRefresh fs projectRoot
    (path_join [projectRoot; ELM_STUFF; lit "transformations.json"]) = false ->
  Shell.extractWithCache fs now projectRoot elmHome test false =
  (readTextFile fs (path_join [projectRoot; ELM_STUFF; lit "transformations.json"])
     ≫= JSON_parse_Transforms, fs).
Proof. intros Hfresh. unfold Shell.extractWithCache. by rewrite Hfresh. Qed.

(** [src/xelm.ts] knows the markers [@IF] and [@FI] only: there the other
    marker lines of the nested example are content. *)
Lemma Xelm_preprocess_markers :
  Xelm.preprocess nested_example (flags true false) =
  join [LF] [lit "A"; lit "// @UNLESS test"; lit "B"; lit "// @END"; lit "// @END"].
Proof. reflexivity. Qed.

(** * Further properties *)

(** ** [modularize] *)

Lemma slice_middle (a body b : str) :
  slice (a ++ body ++ b) (Z.of_nat (length a))
        (Z.of_nat (length (a ++ body ++ b)) - Z.of_nat (length b)) = body.
Proof.
  unfold slice. rewrite !length_app.
  destruct (Z.ltb_spec (Z.of_nat (length a)) 0); [lia|].
  destruct (Z.ltb_spec (Z.of_nat (length a + (length body + length b))
                        - Z.of_nat (length b)) 0); [lia|].
  rewrite Z.min_l by lia. rewrite Z.min_l by lia.
  rewrite Nat2Z.id, drop_app_length.
  replace (Z.to_nat _) with (length body) by lia.
  by rewrite take_app_length.
Qed.

Lemma slice_short (s : str) (pre pos : nat) :
  pos <= pre ->
  length s <= pre + pos ->
  slice s (Z.of_nat pre) (Z.of_nat (length s) - Z.of_nat pos) = [].
Proof.
  intros Hpos Hlen. unfold slice.
  destruct (Z.ltb_spec (Z.of_nat pre) 0); [lia|].
  replace (Z.to_nat _) with 0; [done|].
  destruct (Z.ltb_spec (Z.of_nat (length s) - Z.of_nat pos) 0); lia.
Qed.

(** X1.  Whatever the first 31 and the last 8 code units of the compiled text
    are, [modularize] drops them and wraps what lies between. *)
Theorem modularize_wraps (a body b : str) :
  length a = length Shell.MODULE_PRE ->
  length b = length Shell.MODULE_POS ->
  Shell.modularize (a ++ body ++ b) = MODULE_HEAD ++ body ++ MODULE_TAIL.
Proof.
  intros Ha Hb. unfold Shell.modularize. rewrite <- Ha, <- Hb, slice_middle.
  unfold MODULE_HEAD, MODULE_TAIL. by rewrite <- !app_assoc.
Qed.

Lemma modularize_wraps_witness :
  Shell.modularize (Shell.MODULE_PRE ++ lit "var x = 1;" ++ Shell.MODULE_POS)
  = MODULE_HEAD ++ lit "var x = 1;" ++ MODULE_TAIL.
Proof.
  apply (modularize_wraps Shell.MODULE_PRE (lit "var x = 1;") Shell.MODULE_POS).
  - reflexivity.
  - reflexivity.
Defined.

(** X2.  A text of at most 39 code units has no body left. *)
Theorem modularize_short (content : str) :
  length content <= length Shell.MODULE_PRE + length Shell.MODULE_POS ->
  Shell.modularize content = MODULE_HEAD ++ MODULE_TAIL.
Proof.
  intros Hlen. unfold Shell.modularize.
  rewrite slice_short by (done || (vm_compute; lia)).
  unfold MODULE_HEAD, MODULE_TAIL. by rewrite <- !app_assoc.
Qed.

Lemma modularize_short_witness :
  Shell.modularize (lit "(this));") = MODULE_HEAD ++ MODULE_TAIL.
Proof. apply (modularize_short (lit "(this));")). vm_compute. lia. Defined.

(** ** [spacesToTabs] of [src/xelm.ts] *)

Lemma replaceTwoSpaces_cons2 bol c1 c2 s :
  replaceTwoSpaces bol (c1 :: c2 :: s) =
  if bol && isSpace c1 && isSpace c2
  then TAB :: replaceTwoSpaces (isLineTerminator c2) s
  else c1 :: replaceTwoSpaces (isLineTerminator c1) (c2 :: s).
Proof. done. Qed.

Lemma replaceTwoSpaces_length bol s :
  length (replaceTwoSpaces bol s) <= length s
  /\ (length (replaceTwoSpaces bol s) = length s -> replaceTwoSpaces bol s = s).
Proof.
  remember (length s) as n eqn:Hn. revert bol s Hn.
  induction n as [n IH] using lt_wf_ind. intros bol s ->.
  destruct s as [|c1 [|c2 s]]; [done|done|].
  rewrite replaceTwoSpaces_cons2.
  destruct (bol && isSpace c1 && isSpace c2).
  - destruct (IH (length s) ltac:(cbn; lia) (isLineTerminator c2) s eq_refl)
      as [Hle _].
    cbn [length]. split; [lia|]. intros Hlen. exfalso. lia.
  - destruct (IH (length (c2 :: s)) ltac:(cbn; lia) (isLineTerminator c1)
                (c2 :: s) eq_refl) as [Hle Heq].
    cbn [length] in *. split; [lia|]. intros Hlen. f_equal. apply Heq. lia.
Qed.

Lemma spacesToTabs_loop_fixpoint fuel find :
  length find <= fuel ->
  replaceTwoSpaces true (Xelm.spacesToTabs_loop fuel find) =
  Xelm.spacesToTabs_loop fuel find.
Proof.
  revert find. induction fuel as [|fuel IH]; intros find Hlen.
  - destruct find; [done|cbn in Hlen; lia].
  - cbn [Xelm.spacesToTabs_loop]. case_bool_decide as Hsame; [by rewrite Hsame|].
    apply IH. destruct (replaceTwoSpaces_length true find) as [Hle Heq].
    destruct (decide (length (replaceTwoSpaces true find) = length find)) as [He|];
      [by apply Heq in He|lia].
Qed.

(** X3.  The loop of [spacesToTabs] ends at a text that a further pass leaves as
    it is, and that is no longer than the text it started from. *)
Theorem Xelm_spacesToTabs_fixpoint find :
  replaceTwoSpaces true (Xelm.spacesToTabs find) = Xelm.spacesToTabs find
  /\ length (Xelm.spacesToTabs find) <= length find.
Proof.
  split; [by apply spacesToTabs_loop_fixpoint|].
  unfold Xelm.spacesToTabs. generalize (length find) at 1. intros fuel.
  revert find. induction fuel as [|fuel IH]; intros find; [done|].
  cbn [Xelm.spacesToTabs_loop]. case_bool_decide; [done|].
  specialize (IH (replaceTwoSpaces true find)).
  destruct (replaceTwoSpaces_length true find). lia.
Qed.

Lemma replaceTwoSpaces_single s :
  singleLine s = true -> replaceTwoSpaces false s = s.
Proof.
  induction s as [|c1 s IH]; [done|]. intros Hs.
  cbn [singleLine forallb] in Hs. apply andb_true_iff in Hs as [Hc1 Hs].
  apply negb_true_iff in Hc1.
  destruct s as [|c2 s]; [done|].
  rewrite replaceTwoSpaces_cons2. cbn [andb]. rewrite Hc1. f_equal. by apply IH.
Qed.

Lemma singleLine_spaces n body :
  singleLine body = true -> singleLine (repeat SP n ++ body) = true.
Proof. intros Hb. induction n as [|n IH]; [done|]. cbn. exact IH. Qed.

Lemma replaceTwoSpaces_tab body :
  beginsWithSpace body = false -> singleLine body = true ->
  replaceTwoSpaces true (TAB :: body) = TAB :: body.
Proof.
  intros Hb Hs. destruct body as [|c body]; [done|].
  rewrite replaceTwoSpaces_cons2. cbn [beginsWithSpace] in Hb.
  rewrite Hb, andb_false_r. f_equal. by apply replaceTwoSpaces_single.
Qed.

Lemma spacesToTabs_loop_S fuel find :
  Xelm.spacesToTabs_loop (S fuel) find =
  if bool_decide (replaceTwoSpaces true find = find) then find
  else Xelm.spacesToTabs_loop fuel (replaceTwoSpaces true find).
Proof. done. Qed.

Lemma spacesToTabs_loop_collapse m fuel body :
  beginsWithSpace body = false -> singleLine body = true ->
  m < fuel ->
  Xelm.spacesToTabs_loop fuel (TAB :: repeat SP m ++ body) = TAB :: body.
Proof.
  intros Hb Hs. revert fuel. induction m as [|m IH]; intros fuel Hfuel.
  - destruct fuel as [|fuel]; [lia|]. rewrite spacesToTabs_loop_S. cbn [repeat app].
    rewrite replaceTwoSpaces_tab by done. by rewrite bool_decide_eq_true_2.
  - destruct fuel as [|fuel]; [lia|]. rewrite spacesToTabs_loop_S. cbn [repeat app].
    rewrite replaceTwoSpaces_cons2.
    change (true && isSpace TAB && isSpace SP) with true. cbv iota.
    change (isLineTerminator SP) with false.
    rewrite replaceTwoSpaces_single by (by apply singleLine_spaces).
    rewrite bool_decide_eq_false_2.
    + apply IH. lia.
    + intros Heq. apply (f_equal length) in Heq. cbn in Heq. lia.
Qed.

(** X4.  In [src/xelm.ts] an indentation of two or more spaces becomes one tab,
    whatever its depth. *)
Theorem Xelm_spacesToTabs_collapses n body :
  2 <= n ->
  beginsWithSpace body = false ->
  singleLine body = true ->
  Xelm.spacesToTabs (repeat SP n ++ body) = TAB :: body.
Proof.
  intros Hn Hb Hs. destruct n as [|[|m]]; [lia|lia|].
  unfold Xelm.spacesToTabs. rewrite length_app, repeat_length.
  change (S (S m) + length body) with (S (S (m + length body))).
  rewrite spacesToTabs_loop_S. cbn [repeat app].
  rewrite replaceTwoSpaces_cons2.
  change (true && isSpace SP && isSpace SP) with true. cbv iota.
  change (isLineTerminator SP) with false.
  rewrite replaceTwoSpaces_single by (by apply singleLine_spaces).
  rewrite bool_decide_eq_false_2.
  - apply spacesToTabs_loop_collapse; [done|done|lia].
  - intros Heq. apply (f_equal length) in Heq. cbn in Heq. lia.
Qed.

Lemma Xelm_spacesToTabs_collapses_witness :
  Xelm.spacesToTabs (repeat SP 4 ++ lit "return x;") = TAB :: lit "return x;".
Proof.
  apply (Xelm_spacesToTabs_collapses 4 (lit "return x;")).
  - lia.
  - reflexivity.
  - reflexivity.
Defined.

(** ** [spacesToTabs] of the later revision *)

Lemma replaceAllFrom_skip pat rep k s :
  k <= length s ->
  replaceAllFrom pat rep k s = replaceAllFrom pat rep 0 (drop k s).
Proof.
  revert s. induction k as [|k IH]; intros s Hk; [by rewrite drop_0|].
  destruct s as [|c s]; [cbn in Hk; lia|].
  cbn [replaceAllFrom drop]. apply IH. cbn in Hk. lia.
Qed.

Lemma replaceAll_prefix pat rep s :
  pat <> [] -> replaceAll pat rep (pat ++ s) = rep ++ replaceAll pat rep s.
Proof.
  intros Hpat. destruct pat as [|p pat]; [done|].
  unfold replaceAll. cbn [app replaceAllFrom].
  change (p :: pat ++ s) with ((p :: pat) ++ s). rewrite startsWith_app.
  rewrite replaceAllFrom_skip by (rewrite length_app; lia).
  by rewrite drop_app_length.
Qed.

Lemma replaceAll_absent pat rep s :
  includes pat s = false -> replaceAll pat rep s = s.
Proof.
  unfold replaceAll. induction s as [|c s IH]; cbn [includes]; intros Hinc;
    apply orb_false_iff in Hinc as [Hs Hinc].
  - by destruct pat.
  - cbn [replaceAllFrom]. rewrite Hs. f_equal. by apply IH.
Qed.

Lemma includes_short pat s : length s < length pat -> includes pat s = false.
Proof.
  intros Hlen. destruct (includes pat s) eqn:Hinc; [|done].
  apply includes_occursIn in Hinc as (pre & post & ->).
  rewrite !length_app in Hlen. lia.
Qed.

Lemma includes_app_false pat a b :
  includes pat (a ++ b) = false ->
  includes pat a = false /\ includes pat b = false.
Proof.
  intros Hinc. split.
  - destruct (includes pat a) eqn:Ha; [|done].
    apply includes_occursIn in Ha as (pre & post & ->).
    assert (includes pat ((pre ++ pat ++ post) ++ b) = true); [|congruence].
    apply includes_occursIn. exists pre, (post ++ b). by rewrite <- !app_assoc.
  - destruct (includes pat b) eqn:Hb; [|done].
    apply includes_occursIn in Hb as (pre & post & ->).
    assert (includes pat (a ++ pre ++ pat ++ post) = true); [|congruence].
    apply includes_occursIn. exists (a ++ pre), post. by rewrite <- !app_assoc.
Qed.

Lemma replaceAll_spaces k n m :
  0 < k -> m < k ->
  replaceAll (repeat SP k) [TAB] (repeat SP (k * n + m)) =
  repeat TAB n ++ repeat SP m.
Proof.
  intros Hk Hm. induction n as [|n IH].
  - rewrite Nat.mul_0_r. cbn [Nat.add repeat app].
    apply replaceAll_absent, includes_short. by rewrite !repeat_length.
  - replace (k * S n + m) with (k + (k * n + m)) by lia.
    rewrite repeat_app, replaceAll_prefix by (by destruct k; [lia|]).
    by rewrite IH.
Qed.

Section Indent.
Variable f : str -> str.
Hypothesis f_nil : f [] = [].

Lemma replaceIndent_single body :
  singleLine body = true -> replaceIndent f false [] body = body.
Proof.
  induction body as [|c body IH]; [done|]. intros Hs.
  cbn [singleLine forallb] in Hs. apply andb_true_iff in Hs as [Hc Hs].
  apply negb_true_iff in Hc.
  cbn [replaceIndent]. rewrite bool_decide_eq_true_2 by done.
  cbn [orb negb app]. rewrite Hc. destruct (isSpace c); f_equal; by apply IH.
Qed.

Lemma replaceIndent_flush run s :
  beginsWithSpace s = false ->
  replaceIndent f true run s = f run ++ replaceIndent f false [] s.
Proof.
  intros Hs. destruct s as [|c s].
  - cbn. destruct run; [by rewrite f_nil|by rewrite app_nil_r].
  - cbn [beginsWithSpace] in Hs. cbn [replaceIndent]. rewrite Hs.
    cbn [app]. by destruct run; [rewrite f_nil|].
Qed.

Lemma replaceIndent_run run ws body :
  forallb isSpace ws = true ->
  beginsWithSpace body = false ->
  replaceIndent f true run (ws ++ body) =
  f (run ++ ws) ++ replaceIndent f false [] body.
Proof.
  intros Hws Hb. revert run. induction ws as [|w ws IH]; intros run.
  - rewrite app_nil_r. by apply replaceIndent_flush.
  - cbn [forallb] in Hws. apply andb_true_iff in Hws as [Hw Hws].
    cbn [app replaceIndent]. rewrite Hw. cbn [orb].
    rewrite (IH Hws). by rewrite <- app_assoc.
Qed.
End Indent.

(** X5.  A leading run of spaces becomes a tab for each full unit; what is left
    over of the run and the line behind it stay. *)
Theorem spacesToTabs_indent k n m body :
  0 < k -> m < k ->
  beginsWithSpace body = false ->
  singleLine body = true ->
  Shell.spacesToTabs (repeat SP (k * n + m) ++ body) (repeat SP k) =
  repeat TAB n ++ repeat SP m ++ body.
Proof.
  intros Hk Hm Hb Hs. unfold Shell.spacesToTabs.
  assert (Hnil : replaceAll (repeat SP k) [TAB] [] = [])
    by (by destruct k; [lia|]).
  assert (Hws : forallb isSpace (repeat SP (k * n + m)) = true).
  { apply forallb_forall. by intros c ->%repeat_spec. }
  rewrite (replaceIndent_run (fun match_ => replaceAll (repeat SP k) [TAB] match_)
             Hnil [] _ body Hws Hb). cbn [app].
  rewrite replaceAll_spaces by done.
  rewrite (replaceIndent_single (fun match_ => replaceAll (repeat SP k) [TAB] match_)
             body Hs). by rewrite <- app_assoc.
Qed.

Lemma spacesToTabs_indent_witness :
  Shell.spacesToTabs (repeat SP (4 * 2 + 1) ++ lit "x = 1;") (repeat SP 4) =
  repeat TAB 2 ++ repeat SP 1 ++ lit "x = 1;".
Proof.
  apply (spacesToTabs_indent 4 2 1 (lit "x = 1;")).
  - lia.
  - lia.
  - reflexivity.
  - reflexivity.
Defined.

Lemma replaceIndent_absent spaces bol run s :
  includes spaces (run ++ s) = false ->
  replaceIndent (fun match_ => replaceAll spaces [TAB] match_) bol run s = run ++ s.
Proof.
  revert bol run. induction s as [|c s IH]; intros bol run Hinc.
  - rewrite app_nil_r in *. cbn. destruct run; [done|].
    by apply replaceAll_absent.
  - cbn [replaceIndent]. destruct (isSpace c).
    + destruct (bol || negb (bool_decide _)) eqn:Hstart.
      * rewrite (IH bol (run ++ [c])) by (rewrite <- app_assoc; exact Hinc).
        by rewrite <- app_assoc.
      * apply orb_false_iff in Hstart as [_ Hrun].
        apply negb_false_iff, bool_decide_eq_true_1 in Hrun. subst run.
        cbn [app] in *. f_equal. apply (IH _ []).
        by apply (includes_app_false spaces [c] s).
    + destruct (includes_app_false _ _ _ Hinc) as [Hrun Hrest].
      rewrite (IH false []) by (by apply (includes_app_false spaces [c] s)).
      cbn [app]. f_equal. destruct run; [done|]. by apply replaceAll_absent.
Qed.

(** X6.  A text in which the unit of spaces does not occur is left as it is. *)
Theorem spacesToTabs_without_unit content spaces :
  includes spaces content = false ->
  Shell.spacesToTabs content spaces = content.
Proof. intros Hinc. unfold Shell.spacesToTabs. by apply replaceIndent_absent. Qed.

Lemma spacesToTabs_without_unit_witness :
  Shell.spacesToTabs (lit " a b" ++ [LF; TAB] ++ lit "c") (lit "  ") =
  lit " a b" ++ [LF; TAB] ++ lit "c".
Proof.
  apply (spacesToTabs_without_unit (lit " a b" ++ [LF; TAB] ++ lit "c") (lit "  ")).
  reflexivity.
Defined.

(** ** More on rule application *)

(** X7.  Whatever the find texts of the rules are, the pattern built from them
    compiles: [transform] returns a text. *)
Theorem transform_never_fails content config :
  exists out, Shell.transform content config = Ok out.
Proof. rewrite transform_spec. by eexists. Qed.

(** X8.  A rule set of one rule acts as [String.replaceAll] of the normalised
    find text by the preprocessed replacement, whatever the find text is:
    a find text that names a member of [Object.prototype], or [__proto__],
    is a key of the lookup object like every other. *)
Theorem transform_single_rule content config t :
  transformations config = [t] ->
  fmt t <> [] ->
  Shell.transform content config =
  Ok (replaceAll (fmt t) (replacement config t) content).
Proof.
  intros Hts Hfind. rewrite transform_spec, Hts. cbn [map compiledAlternatives].
  f_equal. unfold replaceAll. rewrite <- regex_single_replaceAll by done.
  apply regexReplaceFrom_ext_in. intros m [<-|[]].
  unfold replacementFor. cbn [rev app List.find].
  by rewrite bool_decide_eq_true_2.
Qed.

Lemma transform_single_rule_witness :
  Shell.transform (lit "x.__proto__ = 1")
    (with_rules [{| find := PROTO; replace := lit "P" |}])
  = Ok (lit "x.P = 1").
Proof.
  apply (transform_single_rule (lit "x.__proto__ = 1")
           (with_rules [{| find := PROTO; replace := lit "P" |}])
           {| find := PROTO; replace := lit "P" |}).
  - reflexivity.
  - vm_compute. discriminate.
Defined.

Lemma regexReplaceFrom_empty_first alts f s :
  regexReplaceFrom ([] :: alts) f 0 s = f [] ++ flat_map (fun c => c :: f []) s.
Proof.
  induction s as [|c s IH]; cbn [regexReplaceFrom List.find startsWith flat_map].
  - done.
  - rewrite IH. done.
Qed.

(** X9.  When the normalised find text of the first rule is empty, no other rule
    is ever applied: the replacement of the last rule with an empty find text
    is put in front of the text and behind each of its code units. *)
Theorem transform_empty_find content config t rest :
  transformations config = t :: rest ->
  fmt t = [] ->
  Shell.transform content config =
  Ok (replacementFor config (t :: rest) [] ++
      flat_map (fun c => c :: replacementFor config (t :: rest) []) content).
Proof.
  intros Hts Hfind. rewrite transform_spec, Hts.
  cbn [map compiledAlternatives]. rewrite Hfind.
  by rewrite regexReplaceFrom_empty_first.
Qed.

Lemma transform_empty_find_witness :
  Shell.transform (lit "ab")
    (with_rules [{| find := lit ""; replace := lit "-" |};
                 {| find := lit "a"; replace := lit "A" |}])
  = Ok (replacementFor
          (with_rules [{| find := lit ""; replace := lit "-" |};
                       {| find := lit "a"; replace := lit "A" |}])
          [{| find := lit ""; replace := lit "-" |};
           {| find := lit "a"; replace := lit "A" |}] [] ++
        flat_map
          (fun c => c :: replacementFor
             (with_rules [{| find := lit ""; replace := lit "-" |};
                          {| find := lit "a"; replace := lit "A" |}])
             [{| find := lit ""; replace := lit "-" |};
              {| find := lit "a"; replace := lit "A" |}] [])
          (lit "ab")).
Proof.
  apply (transform_empty_find (lit "ab")
           (with_rules [{| find := lit ""; replace := lit "-" |};
                        {| find := lit "a"; replace := lit "A" |}])
           {| find := lit ""; replace := lit "-" |}
           [{| find := lit "a"; replace := lit "A" |}]).
  - reflexivity.
  - reflexivity.
Defined.

Lemma find_app_skip {A} (p : A -> bool) l1 a l2 :
  p a = false -> List.find p (l1 ++ a :: l2) = List.find p (l1 ++ l2).
Proof.
  intros Ha. induction l1 as [|x l1 IH]; cbn [app List.find]; [by rewrite Ha|].
  by rewrite IH.
Qed.

Lemma regexReplaceFrom_drop_alt l1 a l2 f g skip pre s :
  ~ occursIn a (pre ++ s) ->
  (forall m, m <> a -> f m = g m) ->
  regexReplaceFrom (l1 ++ a :: l2) f skip s =
  regexReplaceFrom (l1 ++ l2) g skip s.
Proof.
  intros Hno Hfg. revert skip pre Hno.
  induction s as [|c s IH]; intros skip pre Hno.
  - destruct skip; [|done]. cbn [regexReplaceFrom].
    assert (Ha : startsWith a [] = false).
    { destruct (startsWith a []) eqn:Hs; [|done]. exfalso. apply Hno.
      destruct (startsWith_true _ _ Hs) as [post ->]. by exists pre, post. }
    rewrite (find_app_skip (fun a0 => startsWith a0 []) _ _ _ Ha).
    destruct (List.find _ (l1 ++ l2)) as [m|] eqn:Hfind; [|done].
    apply find_some in Hfind as [_ Hm]. rewrite (Hfg m); [done|].
    intros ->. congruence.
  - assert (Hnext : ~ occursIn a ((pre ++ [c]) ++ s)) by (by rewrite <- app_assoc).
    destruct skip as [|k]; cbn [regexReplaceFrom]; [|by apply (IH _ (pre ++ [c]))].
    assert (Ha : startsWith a (c :: s) = false).
    { destruct (startsWith a (c :: s)) eqn:Hs; [|done]. exfalso. apply Hno.
      destruct (startsWith_true _ _ Hs) as [post ->]. by exists pre, post. }
    rewrite (find_app_skip (fun a0 => startsWith a0 (c :: s)) _ _ _ Ha).
    destruct (List.find _ (l1 ++ l2)) as [m|] eqn:Hfind.
    + apply find_some in Hfind as [_ Hm]. rewrite (Hfg m) by (intros ->; congruence).
      destruct m; by rewrite (IH _ (pre ++ [c])).
    + by rewrite (IH _ (pre ++ [c])).
Qed.

Lemma preprocess_flags c1 c2 content :
  debug c1 = debug c2 -> test c1 = test c2 ->
  Shell.preprocess content c1 = Shell.preprocess content c2.
Proof.
  intros Hd Ht. unfold Shell.preprocess.
  assert (Hline : forall state line,
            Shell.preprocess_line c1 state line = Shell.preprocess_line c2 state line).
  { intros [stack lines] line. unfold Shell.preprocess_line.
    destruct (Shell.marker stack line); [done|].
    assert (Hall : forallb (fun s => Bool.eqb (Shell.cond s)
                                       (Shell.config_get c1 (Shell.flag s))) stack =
                   forallb (fun s => Bool.eqb (Shell.cond s)
                                       (Shell.config_get c2 (Shell.flag s))) stack).
    { induction stack as [|[fl co] stack IHs]; [done|]. cbn [forallb].
      rewrite IHs. f_equal. by destruct fl; cbn; rewrite ?Hd, ?Ht. }
    by rewrite Hall. }
  generalize (@nil Shell.Scope, @nil str).
  induction (split LF content) as [|line lines IH]; intros state; [done|].
  cbn [fold_left]. rewrite Hline. apply IH.
Qed.

Lemma replacementFor_drop_rule c1 c2 ts1 t ts2 m :
  debug c1 = debug c2 -> test c1 = test c2 ->
  m <> fmt t ->
  replacementFor c1 (ts1 ++ t :: ts2) m = replacementFor c2 (ts1 ++ ts2) m.
Proof.
  intros Hd Ht Hm. unfold replacementFor.
  rewrite !rev_app_distr. cbn [rev]. rewrite <- app_assoc. cbn [app].
  rewrite find_app_skip by (by apply bool_decide_eq_false_2; intros <-).
  destruct (List.find _ _); [|done].
  unfold replacement. by apply preprocess_flags.
Qed.

(** X10.  A rule whose normalised find text does not occur in the source has no
    effect: the result is that of the rule set without it. *)
Theorem transform_rule_without_match content m d te ts1 t ts2 :
  includes (fmt t) content = false ->
  Shell.transform content
    {| module := m; debug := d; test := te; transformations := ts1 ++ t :: ts2 |} =
  Shell.transform content
    {| module := m; debug := d; test := te; transformations := ts1 ++ ts2 |}.
Proof.
  intros Hinc. rewrite !transform_spec. cbn [transformations]. f_equal.
  assert (Hno : ~ occursIn (fmt t) ([] ++ content)).
  { intros Hocc. apply includes_occursIn in Hocc. cbn [app] in Hocc. congruence. }
  rewrite map_app. cbn [map].
  destruct (map fmt ts1 ++ fmt t :: map fmt ts2) as [|a0 alts0] eqn:Halts;
    [by destruct (map fmt ts1)|].
  cbn [compiledAlternatives]. rewrite <- Halts.
  destruct (ts1 ++ ts2) as [|t0 ts0] eqn:Hts.
  - apply app_eq_nil in Hts as [-> ->]. cbn.
    rewrite (regexReplaceFrom_no_match _ _ []), (regexReplaceFrom_empty _ content);
      [done|done|].
    by intros a [<-|[]].
  - rewrite <- Hts, map_app.
    destruct (map fmt ts1 ++ map fmt ts2) as [|a1 alts1] eqn:Halts1.
    { rewrite <- map_app, Hts in Halts1. done. }
    cbn [compiledAlternatives]. rewrite <- Halts1.
    apply (regexReplaceFrom_drop_alt _ _ _ _ _ 0 []); [done|].
    intros m' Hm'. by apply replacementFor_drop_rule.
Qed.

Lemma transform_rule_without_match_witness :
  Shell.transform (lit "a b")
    {| module := false; debug := false; test := false;
       transformations := [{| find := lit "a"; replace := lit "A" |}] ++
                          {| find := lit "zz"; replace := lit "Z" |} ::
                          [{| find := lit "b"; replace := lit "B" |}] |} =
  Shell.transform (lit "a b")
    {| module := false; debug := false; test := false;
       transformations := [{| find := lit "a"; replace := lit "A" |}] ++
                          [{| find := lit "b"; replace := lit "B" |}] |}.
Proof.
  apply (transform_rule_without_match (lit "a b") false false false
           [{| find := lit "a"; replace := lit "A" |}]
           {| find := lit "zz"; replace := lit "Z" |}
           [{| find := lit "b"; replace := lit "B" |}]).
  reflexivity.
Defined.

(** ** More on the conditional preprocessor *)

Lemma split_cons sep s : exists l ls, split sep s = l :: ls.
Proof.
  induction s as [|c s [l [ls IH]]]; cbn [split]; [by eexists _, _|].
  destruct (Ascii.eqb c sep); [by eexists _, _|].
  rewrite IH. by eexists _, _.
Qed.

Lemma join_split sep s : join [sep] (split sep s) = s.
Proof.
  induction s as [|c s IH]; [done|]. cbn [split].
  destruct (split_cons sep s) as (l & ls & Hs). rewrite Hs in *.
  destruct (Ascii.eqb_spec c sep) as [->|_].
  - rewrite join_cons2, IH. done.
  - destruct ls as [|l' ls].
    + cbn [join] in *. by rewrite IH.
    + rewrite join_cons2 in *. cbn [app]. f_equal. exact IH.
Qed.

Lemma marker_any_stack stack line :
  isMarkerLine line = false -> Shell.marker stack line = None.
Proof.
  unfold isMarkerLine. intros Hm. apply bool_decide_eq_false in Hm.
  destruct (Shell.marker stack line) as [stack'|] eqn:Hs; [|done].
  exfalso. apply Hm. apply (marker_lines []).
  apply (marker_lines stack). by eexists.
Qed.

Lemma preprocess_loop_plain config stack acc lines :
  forallb (fun l => negb (isMarkerLine l)) lines = true ->
  fold_left (Shell.preprocess_line config) lines (stack, acc) =
  (stack,
   acc ++ if forallb (holds config) stack
          then map (replaceFirst (repeat TAB (length stack)) []) lines
          else []).
Proof.
  revert acc. induction lines as [|l lines IH]; intros acc Hplain.
  - cbn. by destruct (forallb _ stack); rewrite app_nil_r.
  - cbn [forallb] in Hplain. apply andb_true_iff in Hplain as [Hl Hplain].
    apply negb_true_iff in Hl.
    cbn [fold_left]. rewrite preprocess_line_spec. unfold emission.
    rewrite (marker_any_stack stack l Hl). cbn [default].
    rewrite IH by done.
    destruct (forallb (holds config) stack); cbn [map];
      by rewrite <- app_assoc.
Qed.

Lemma replaceFirst_nil s : replaceFirst [] [] s = s.
Proof. by destruct s. Qed.

Lemma map_replaceFirst_nil lines : map (replaceFirst (repeat TAB 0) []) lines = lines.
Proof.
  induction lines as [|l lines IH]; [done|].
  cbn [map repeat]. rewrite replaceFirst_nil. cbn [repeat] in IH. by rewrite IH.
Qed.

(** X11.  A text without marker lines is returned as it is, whatever the flags. *)
Theorem preprocess_without_markers config content :
  forallb (fun l => negb (isMarkerLine l)) (split LF content) = true ->
  Shell.preprocess content config = content.
Proof.
  intros Hplain. unfold Shell.preprocess.
  rewrite preprocess_loop_plain by done.
  cbn [forallb length app]. rewrite map_replaceFirst_nil.
  apply join_split.
Qed.

Lemma preprocess_without_markers_witness :
  Shell.preprocess (lit "var a = 1;" ++ [LF; TAB] ++ lit "// @IF") (flags true false)
  = lit "var a = 1;" ++ [LF; TAB] ++ lit "// @IF".
Proof.
  apply (preprocess_without_markers (flags true false)
           (lit "var a = 1;" ++ [LF; TAB] ++ lit "// @IF")).
  vm_compute. reflexivity.
Defined.

Lemma preprocess_loop_block config pre open scope body :
  forallb (fun l => negb (isMarkerLine l)) pre = true ->
  Shell.marker [] open = Some [scope] ->
  forallb (fun l => negb (isMarkerLine l)) body = true ->
  fold_left (Shell.preprocess_line config) (pre ++ open :: body) ([], []) =
  ([scope],
   pre ++ if holds config scope then map (replaceFirst [TAB] []) body else []).
Proof.
  intros Hpre Hopen Hbody.
  rewrite fold_left_app, preprocess_loop_plain by done.
  cbn [forallb length app fold_left]. rewrite map_replaceFirst_nil.
  rewrite preprocess_line_spec. unfold emission. rewrite Hopen. cbn [from_option id].
  rewrite app_nil_r, preprocess_loop_plain by done.
  cbn [forallb length repeat]. by rewrite andb_true_r.
Qed.

(** X12.  One conditional block in a text without other marker lines: the lines
    before and behind the block are kept; the lines of the block are kept,
    each without its first tab, when the condition of the block holds, and
    dropped otherwise; the two marker lines are dropped. *)
Theorem preprocess_block config content pre open scope body close post :
  split LF content = pre ++ open :: body ++ close :: post ->
  forallb (fun l => negb (isMarkerLine l)) (pre ++ body ++ post) = true ->
  Shell.marker [] open = Some [scope] ->
  isClosingMarker close ->
  Shell.preprocess content config =
  join [LF] (pre ++ (if holds config scope
                     then map (replaceFirst [TAB] []) body else []) ++ post).
Proof.
  intros Hsplit Hplain Hopen Hclose.
  rewrite !forallb_app, !andb_true_iff in Hplain.
  destruct Hplain as (Hpre & Hbody & Hpost).
  unfold Shell.preprocess. rewrite Hsplit.
  replace (pre ++ open :: body ++ close :: post)
    with ((pre ++ open :: body) ++ close :: post)
    by (by rewrite <- app_assoc).
  rewrite fold_left_app, (preprocess_loop_block config pre open scope body) by done.
  cbn [fold_left]. rewrite preprocess_line_spec. unfold emission.
  rewrite Hclose. cbn [from_option id removelast]. rewrite app_nil_r.
  rewrite preprocess_loop_plain by done.
  cbn [forallb length repeat]. rewrite map_replaceFirst_nil.
  by rewrite <- app_assoc.
Qed.

Lemma preprocess_block_witness :
  Shell.preprocess
    (join [LF] [lit "x"; lit "// @UNLESS test"; TAB :: lit "A"; lit "// @END"; lit "y"])
    (flags true false)
  = join [LF]
      ([lit "x"] ++
       (if holds (flags true false) {| Shell.flag := Shell.flag_test; Shell.cond := false |}
        then map (replaceFirst [TAB] []) [TAB :: lit "A"] else []) ++ [lit "y"]).
Proof.
  apply (preprocess_block (flags true false)
           (join [LF] [lit "x"; lit "// @UNLESS test"; TAB :: lit "A";
                       lit "// @END"; lit "y"])
           [lit "x"] (lit "// @UNLESS test")
           {| Shell.flag := Shell.flag_test; Shell.cond := false |}
           [TAB :: lit "A"] (lit "// @END") [lit "y"]).
  - reflexivity.
  - vm_compute. reflexivity.
  - reflexivity.
  - exact closing_marker_END.
Defined.

(** X13.  A block that is not closed is no error: it extends to the end of the
    text. *)
Theorem preprocess_unclosed_block config content pre open scope body :
  split LF content = pre ++ open :: body ->
  forallb (fun l => negb (isMarkerLine l)) (pre ++ body) = true ->
  Shell.marker [] open = Some [scope] ->
  Shell.preprocess content config =
  join [LF] (pre ++ if holds config scope
                    then map (replaceFirst [TAB] []) body else []).
Proof.
  intros Hsplit Hplain Hopen.
  rewrite forallb_app, andb_true_iff in Hplain. destruct Hplain as [Hpre Hbody].
  unfold Shell.preprocess. rewrite Hsplit.
  by rewrite (preprocess_loop_block config pre open scope body).
Qed.

Lemma preprocess_unclosed_block_witness :
  Shell.preprocess
    (join [LF] [lit "x"; lit "// @IF debug"; TAB :: lit "A"; lit "B"])
    (flags false false)
  = join [LF]
      ([lit "x"] ++
       if holds (flags false false) {| Shell.flag := Shell.flag_debug; Shell.cond := true |}
       then map (replaceFirst [TAB] []) [TAB :: lit "A"; lit "B"] else []).
Proof.
  apply (preprocess_unclosed_block (flags false false)
           (join [LF] [lit "x"; lit "// @IF debug"; TAB :: lit "A"; lit "B"])
           [lit "x"] (lit "// @IF debug")
           {| Shell.flag := Shell.flag_debug; Shell.cond := true |}
           [TAB :: lit "A"; lit "B"]).
  - reflexivity.
  - vm_compute. reflexivity.
  - reflexivity.
Defined.

(** ** The matcher of a package name *)

Lemma escapeVar_slash c :
  Ascii.eqb (if Ascii.eqb c "-" then "_"%char else c) "/" = Ascii.eqb c "/".
Proof.
  destruct (Ascii.eqb_spec c "-") as [->|_]; [done|done].
Qed.

Lemma split_escapeVar name :
  split "/" (Shell.escapeVar name) = map Shell.escapeVar (split "/" name).
Proof.
  induction name as [|c name IH]; [done|].
  unfold Shell.escapeVar in *. cbn [map split].
  rewrite escapeVar_slash, IH.
  destruct (Ascii.eqb c "/"); [done|].
  by destruct (split "/" name).
Qed.

Lemma escapeVar_idempotent name :
  Shell.escapeVar (Shell.escapeVar name) = Shell.escapeVar name.
Proof.
  unfold Shell.escapeVar. rewrite map_map. apply map_ext. intros c.
  destruct (Ascii.eqb c "-") eqn:Hc; [reflexivity|by rewrite Hc].
Qed.

Lemma parseRegExp_namespace author project :
  parseRegExp (lit "\$" ++ Shell.escapeRegExp author ++ lit "\$"
               ++ Shell.escapeRegExp project ++ lit "\$") =
  Some {| alternatives := [lit "$" ++ author ++ lit "$" ++ project ++ lit "$"] |}.
Proof.
  unfold parseRegExp.
  assert (Hlex : lexPattern false
                   (lit "\$" ++ Shell.escapeRegExp author ++ lit "\$"
                    ++ Shell.escapeRegExp project ++ lit "\$") =
                 Some (map PatternCharacter
                         (lit "$" ++ author ++ lit "$" ++ project ++ lit "$"))).
  { cbn [lit list_ascii_of_string app lexPattern].
    change (Ascii.eqb "\" "\") with true. cbv iota.
    change (isWordCharacter "$") with false. cbv iota.
    rewrite (lexPattern_escapeRegExp author _
               (map PatternCharacter ("$"%char :: project ++ ["$"%char]))).
    - cbn [fmap option_fmap option_map map].
      by rewrite (map_app _ author).
    - cbn [lexPattern].
      change (Ascii.eqb "\" "\") with true. cbv iota.
      change (isWordCharacter "$") with false. cbv iota.
      rewrite (lexPattern_escapeRegExp project _ [PatternCharacter "$"%char]).
      + cbn [fmap option_fmap option_map map].
        by rewrite (map_app _ project).
      + reflexivity. }
  rewrite Hlex. cbn [mbind option_bind].
  replace (parseDisjunction
             (map PatternCharacter (lit "$" ++ author ++ lit "$" ++ project ++ lit "$")))
    with (parseAlternatives
            (map PatternCharacter (lit "$" ++ author ++ lit "$" ++ project ++ lit "$")
             ++ []))
    by (by rewrite app_nil_r).
  rewrite (parseAlternatives_literal _ [] [] []) by done.
  by rewrite app_nil_r.
Qed.

Lemma getNamespace_spec name author project rest :
  split "/" name = author :: project :: rest ->
  Shell.getNamespace name =
  Ok {| alternatives :=
          [lit "$" ++ Shell.escapeVar author ++ lit "$"
           ++ Shell.escapeVar project ++ lit "$"] |}.
Proof.
  intros Hsplit. unfold Shell.getNamespace.
  rewrite split_escapeVar, Hsplit. cbn [map lookup list_lookup].
  rewrite !escapeVar_idempotent. unfold newRegExp.
  by rewrite parseRegExp_namespace.
Qed.

Lemma escapeVar_underscored name : underscored name (Shell.escapeVar name).
Proof.
  unfold underscored, Shell.escapeVar.
  induction name as [|c name IH]; cbn [map]; by constructor.
Qed.

(** X14.  For a name with a slash the matcher is the literal prefix
    [$author$project$] built from the first two segments of the name with
    every dash replaced by an underscore; further segments are ignored, and
    no character of the name acts as pattern syntax.  Rewriting with it is
    [String.replaceAll] of that prefix by [$author$project$]. *)
Theorem getNamespace_prefix name author project rest :
  split "/" name = author :: project :: rest ->
  exists regExp,
    Shell.getNamespace name = Ok regExp
    /\ underscored author (Shell.escapeVar author)
    /\ underscored project (Shell.escapeVar project)
    /\ alternatives regExp =
       [lit "$" ++ Shell.escapeVar author ++ lit "$"
        ++ Shell.escapeVar project ++ lit "$"]
    /\ forall text,
         Shell.rewriteNamespace (Some regExp) text =
         replaceAll (lit "$" ++ Shell.escapeVar author ++ lit "$"
                     ++ Shell.escapeVar project ++ lit "$")
           NAMESPACE_PLACEHOLDER text.
Proof.
  intros Hsplit. eexists. split; [exact (getNamespace_spec _ _ _ _ Hsplit)|].
  split; [apply escapeVar_underscored|]. split; [apply escapeVar_underscored|].
  split; [done|]. intros text.
  unfold Shell.rewriteNamespace, regexReplaceAll. cbn [alternatives].
  by apply regex_single_replaceAll.
Qed.

Lemma getNamespace_prefix_witness :
  exists regExp,
    Shell.getNamespace (lit "my-org/a-b.c/extra") = Ok regExp
    /\ underscored (lit "my-org") (lit "my_org")
    /\ underscored (lit "a-b.c") (lit "a_b.c")
    /\ alternatives regExp = [lit "$my_org$a_b.c$"]
    /\ forall text,
         Shell.rewriteNamespace (Some regExp) text =
         replaceAll (lit "$my_org$a_b.c$") NAMESPACE_PLACEHOLDER text.
Proof.
  apply (getNamespace_prefix (lit "my-org/a-b.c/extra") (lit "my-org") (lit "a-b.c")
           [lit "extra"]).
  reflexivity.
Defined.

Lemma split_cases sep s :
  (~ In sep s /\ split sep s = [s])
  \/ (In sep s /\ exists a b rest, split sep s = a :: b :: rest).
Proof.
  induction s as [|c s IH]; [left; split; [by intros []|done]|].
  cbn [split]. destruct (Ascii.eqb_spec c sep) as [->|Hne].
  - right. split; [by left|].
    destruct (split_cons sep s) as (l & ls & ->). by eexists _, _, _.
  - destruct IH as [[Hno ->]|[Hin (a & b & rest & ->)]].
    + left. split; [|done]. by intros [|].
    + right. split; [by right|]. by eexists _, _, _.
Qed.

(** X15.  The check of the author name never fails; the check of the project name
    fails exactly for a name without a slash, and every other name has a
    matcher. *)
Theorem getNamespace_errors name :
  Shell.getNamespace name <> Err NoAuthorName
  /\ (Shell.getNamespace name = Err NoProjectName <-> ~ In "/"%char name)
  /\ (In "/"%char name <-> exists regExp, Shell.getNamespace name = Ok regExp).
Proof.
  destruct (split_cases "/" name) as [[Hno Hs]|[Hin (a & b & rest & Hs)]].
  - assert (Hg : Shell.getNamespace name = Err NoProjectName).
    { unfold Shell.getNamespace. by rewrite split_escapeVar, Hs. }
    rewrite Hg. split; [done|]. split; [done|].
    split; [done|]. by intros [? ?].
  - rewrite (getNamespace_spec _ _ _ _ Hs).
    split; [done|]. split; [split; [done|by intros []]|].
    split; [by eexists|done].
Qed.

(** ** More on the documentation scan *)

Lemma afterAnchor_skip pre tokens :
  forallb (fun t => negb (isAnchorParagraph t)) pre = true ->
  afterAnchor (pre ++ tokens) = afterAnchor tokens.
Proof.
  induction pre as [|t pre IH]; [done|]. cbn [forallb app].
  intros Hpre. apply andb_true_iff in Hpre as [Ht Hpre].
  destruct t as [depth|items| |]; cbn [afterAnchor]; try by apply IH.
  cbn [isAnchorParagraph] in Ht. apply negb_true_iff in Ht. rewrite Ht. by apply IH.
Qed.

Lemma beforeHeading_stop mid d post :
  forallb (fun t => negb (endsSection t)) mid = true ->
  (d <? 4) = true ->
  beforeHeading (mid ++ heading d :: post) = mid /\ beforeHeading mid = mid.
Proof.
  intros Hmid Hd. induction mid as [|t mid IH].
  - cbn [app beforeHeading]. by rewrite Hd.
  - cbn [forallb] in Hmid. apply andb_true_iff in Hmid as [Ht Hmid].
    destruct (IH Hmid) as [IH1 IH2].
    destruct t as [depth|items| |]; cbn [app beforeHeading]; rewrite ?IH1, ?IH2;
      try done.
    cbn [endsSection] in Ht. apply negb_true_iff in Ht. by rewrite Ht.
Qed.

(** X16.  The scan looks at one section only: it pairs the code blocks
    between the first paragraph that links to the anchor and the first
    heading of depth 1 to 3 after it, all of them, also those behind a
    heading of depth 4 or more or behind a further link to the anchor.  The
    tokens before that paragraph, and the tokens from that heading on, have
    no influence on the result: neither their code blocks nor their errors
    count. *)
Theorem scan_section regExp pre items mid d post :
  forallb (fun t => negb (isAnchorParagraph t)) pre = true ->
  hasAnchor items = true ->
  forallb (fun t => negb (endsSection t)) mid = true ->
  (d <? 4) = true ->
  Shell.scan regExp false None [] (pre ++ paragraph items :: mid ++ heading d :: post)
  = pairBlocks (normalise regExp) None [] (codeBlocks mid).
Proof.
  intros Hpre Hitems Hmid Hd. rewrite Shell_scan_spec. unfold collected.
  rewrite afterAnchor_skip by done. cbn [afterAnchor]. rewrite Hitems.
  by destruct (beforeHeading_stop mid d post Hmid Hd) as [-> _].
Qed.

Lemma scan_section_witness :
  Shell.scan None false None []
    ([heading 1; code None (lit "stray")] ++
     paragraph [link ANCHOR] ::
       [code (Some (lit "js")) (lit "a"); heading 4; paragraph [link ANCHOR];
        heading 6; code (Some (lit "js")) (lit "b")]
       ++ heading 3 :: [code (Some (lit "elm")) (lit "later")])
  = Ok [{| find := lit "a"; replace := lit "b" |}].
Proof.
  apply (scan_section None [heading 1; code None (lit "stray")] [link ANCHOR]
           [code (Some (lit "js")) (lit "a"); heading 4; paragraph [link ANCHOR];
            heading 6; code (Some (lit "js")) (lit "b")]
           3 [code (Some (lit "elm")) (lit "later")]).
  - reflexivity.
  - reflexivity.
  - reflexivity.
  - reflexivity.
Defined.

Lemma pairBlocks_app norm texts transforms blocks :
  Nat.Even (length texts) ->
  pairBlocks norm None transforms (map jsBlock texts ++ blocks) =
  pairBlocks norm None (transforms ++ pairs (map norm texts)) blocks.
Proof.
  revert transforms.
  induction texts as [texts IH] using (induction_ltof1 _ (@length str)).
  unfold ltof in IH. intros transforms Heven.
  destruct texts as [|f [|r texts]].
  - cbn. by rewrite app_nil_r.
  - destruct Heven as [k Hk]. cbn in Hk. lia.
  - cbn [map app pairBlocks jsBlock pairs].
    rewrite bool_decide_eq_true_2 by done. cbn [negb pairBlocks].
    rewrite IH.
    + by rewrite <- app_assoc.
    + cbn. lia.
    + cbn [length] in Heven. by rewrite Nat.Even_succ_succ in Heven.
Qed.

Lemma pairBlocks_unexpected norm find transforms texts lang text rest :
  lang <> Some (lit "js") ->
  pairBlocks norm find transforms (map jsBlock texts ++ (lang, text) :: rest) =
  Err (UnexpectedCodeBlock lang).
Proof.
  intros Hlang. revert find transforms.
  induction texts as [|t texts IH]; intros find transforms.
  - cbn [map app pairBlocks]. by rewrite bool_decide_eq_false_2.
  - cbn [map app pairBlocks jsBlock].
    rewrite bool_decide_eq_true_2 by done. cbn [negb].
    destruct find; apply IH.
Qed.

(** X17.  The first collected block with a language tag other than [js] decides
    the failure, whatever follows it and whether or not the blocks before it
    pair up: the error names that tag. *)
Theorem scan_unexpected_block regExp tokens texts lang text rest :
  collected tokens = map jsBlock texts ++ (lang, text) :: rest ->
  lang <> Some (lit "js") ->
  Shell.scan regExp false None [] tokens = Err (UnexpectedCodeBlock lang).
Proof.
  intros Hblocks Hlang. rewrite Shell_scan_spec, Hblocks.
  by apply pairBlocks_unexpected.
Qed.

Lemma scan_unexpected_block_witness :
  Shell.scan None false None []
    [paragraph [link ANCHOR]; code (Some (lit "js")) (lit "a");
     code (Some (lit "elm")) (lit "b"); code None (lit "c")]
  = Err (UnexpectedCodeBlock (Some (lit "elm"))).
Proof.
  apply (scan_unexpected_block None
           [paragraph [link ANCHOR]; code (Some (lit "js")) (lit "a");
            code (Some (lit "elm")) (lit "b"); code None (lit "c")]
           [lit "a"] (Some (lit "elm")) (lit "b") [(None, lit "c")]).
  - reflexivity.
  - discriminate.
Defined.

(** X18.  An odd number of collected [js] blocks fails at the end of the section,
    and the error carries the last block, normalised, as the find text
    without a replacement. *)
Theorem scan_unmatched_pattern regExp tokens texts last :
  collected tokens = map jsBlock (texts ++ [last]) ->
  Nat.Even (length texts) ->
  Shell.scan regExp false None [] tokens =
  Err (UnmatchedPattern (normalise regExp last)).
Proof.
  intros Hblocks Heven. rewrite Shell_scan_spec, Hblocks, map_app.
  rewrite pairBlocks_app by done.
  cbn [map pairBlocks jsBlock]. by rewrite bool_decide_eq_true_2.
Qed.

Lemma scan_unmatched_pattern_witness :
  Shell.scan None false None []
    [paragraph [link ANCHOR]; code (Some (lit "js")) (lit "a");
     code (Some (lit "js")) (lit "b"); code (Some (lit "js")) (lit "    c")]
  = Err (UnmatchedPattern (normalise None (lit "    c"))).
Proof.
  apply (scan_unmatched_pattern None
           [paragraph [link ANCHOR]; code (Some (lit "js")) (lit "a");
            code (Some (lit "js")) (lit "b"); code (Some (lit "js")) (lit "    c")]
           [lit "a"; lit "b"] (lit "    c")).
  - reflexivity.
  - exists 1. reflexivity.
Defined.

(** ** More on the extraction *)

Section MoreExtraction.
Context `{Externals}.

Lemma Shell_extractReadme_errors fs filePath e :
  Shell.extractReadme fs filePath None = Err e -> isMalformedDoc e = true.
Proof.
  destruct (fs !! filePath) as [file|] eqn:Hfile.
  - rewrite (Shell_extractReadme_spec _ _ None None _ Hfile eq_refl).
    pose proof (pairBlocks_outcome (normalise None) None []
                  (collected (marked_lexer (content file)))) as Hout.
    destruct (pairBlocks _ _ _ _); [done|]. intros [= <-]. apply Hout.
  - by rewrite Shell_extractReadme_missing.
Qed.

(** X19.  A dependency whose identifier has no slash cannot be located: the
    extraction fails with the error of [path.join] on a missing part, and it
    fails with that error for no other identifier. *)
Theorem extractDependency_needs_slash fs dependency version directory :
  Shell.extractDependency fs dependency version directory = Err PathNotString
  <-> ~ In "/"%char dependency.
Proof.
  unfold Shell.extractDependency.
  destruct (split_cases "/" dependency) as [[Hno ->]|[Hin (a & b & rest & ->)]];
    cbn [lookup list_lookup].
  - done.
  - split; [|done]. intros Herr. by apply Shell_extractReadme_errors in Herr.
Qed.

Lemma extractDependencies_app fs directory deps tss transformations :
  map (fun dep => Shell.extractDependency fs dep.1 dep.2 directory) deps = map Ok tss ->
  Shell.extractDependencies fs directory deps transformations =
  Ok (transformations ++ concat tss).
Proof.
  revert tss transformations.
  induction deps as [|[dep ver] deps IH]; intros [|ts tss] transformations Hall;
    try done.
  - cbn. by rewrite app_nil_r.
  - cbn [map fst snd] in Hall. injection Hall as Hdep Hall.
    cbn [Shell.extractDependencies]. rewrite Hdep. cbn.
    rewrite (IH tss) by done. rewrite pushAll_app. cbn [concat].
    by rewrite <- app_assoc.
Qed.

Lemma extractDependencies_fails fs directory pre dep ver post tss e transformations :
  map (fun dep => Shell.extractDependency fs dep.1 dep.2 directory) pre = map Ok tss ->
  Shell.extractDependency fs dep ver directory = Err e ->
  Shell.extractDependencies fs directory (pre ++ (dep, ver) :: post) transformations =
  Err e.
Proof.
  revert tss transformations.
  induction pre as [|[dep' ver'] pre IH]; intros [|ts tss] transformations Hall Hdep;
    try done.
  - cbn. by rewrite Hdep.
  - cbn [map fst snd] in Hall. injection Hall as Hdep' Hall.
    cbn [app Shell.extractDependencies]. rewrite Hdep'. cbn.
    by apply (IH tss).
Qed.

(** X20.  Outside test mode the rule set of a project is the rules of its
    own documentation, followed by the rules of the dependencies that the
    manifest lists as direct, in their order, followed by the rules of those
    it lists as indirect, in their order. *)
Theorem extract_in_order fs projectRoot elmHome file elmJson version deps own
    direct_rules indirect_rules :
  fs !! path_join [projectRoot; ELM_JSON] = Some file ->
  JSON_parse_ElmJson (content file) = Ok elmJson ->
  elm_version elmJson = Some version ->
  dependencies elmJson = Some deps ->
  Shell.extractReadme fs (path_join [projectRoot; README_MD]) None = Ok own ->
  map (fun dep => Shell.extractDependency fs dep.1 dep.2
                    (path_join [elmHome; version; lit "packages"]))
      (default [] (direct deps)) = map Ok direct_rules ->
  map (fun dep => Shell.extractDependency fs dep.1 dep.2
                    (path_join [elmHome; version; lit "packages"]))
      (default [] (indirect deps)) = map Ok indirect_rules ->
  Shell.extract fs projectRoot elmHome false =
  Ok (own ++ concat direct_rules ++ concat indirect_rules).
Proof.
  intros Hfile Hjson Hversion Hdeps Hown Hdirect Hindirect.
  unfold Shell.extract, Shell.parseElmJson, exists_, readTextFile.
  rewrite Hfile. rewrite bool_decide_eq_true_2 by (by eexists).
  cbn [negb mbind result_bind]. rewrite Hjson. cbn [mbind result_bind].
  rewrite Hversion, Hdeps. cbn [mbind result_bind default from_option id].
  rewrite Hown. cbn [mbind result_bind Shell.m_version Shell.m_dependencies].
  rewrite (extractDependencies_app _ _ _ (direct_rules ++ indirect_rules)).
  - by rewrite concat_app.
  - by rewrite !map_app, Hdirect, Hindirect.
Qed.

(** X21.  The first dependency whose extraction fails decides the error of
    [extract]; the dependencies after it are not looked at. *)
Theorem extract_first_failure fs projectRoot elmHome m own pre dep ver post tss e :
  Shell.parseElmJson fs (path_join [projectRoot; ELM_JSON]) = Ok m ->
  Shell.extractReadme fs (path_join [projectRoot; README_MD]) None = Ok own ->
  Shell.m_dependencies m = pre ++ (dep, ver) :: post ->
  map (fun dep => Shell.extractDependency fs dep.1 dep.2
                    (path_join [elmHome; Shell.m_version m; lit "packages"]))
      pre = map Ok tss ->
  Shell.extractDependency fs dep ver
    (path_join [elmHome; Shell.m_version m; lit "packages"]) = Err e ->
  Shell.extract fs projectRoot elmHome false = Err e.
Proof.
  intros Hm Hown Hsplit Hpre Hdep. unfold Shell.extract. rewrite Hm.
  cbn [mbind result_bind]. rewrite Hown. cbn [mbind result_bind]. rewrite Hsplit. by apply (extractDependencies_fails _ _ _ _ _ _ tss).
Qed.

(** Without the manifest of the project nothing is extracted: [extract]
    fails on it before it looks at any documentation. *)
Lemma Shell_extract_without_manifest fs projectRoot elmHome test :
  fs !! path_join [projectRoot; ELM_JSON] = None ->
  Shell.extract fs projectRoot elmHome test =
  Err (ManifestNotFound (path_join [projectRoot; ELM_JSON])).
Proof.
  intros Hm. unfold Shell.extract, Shell.parseElmJson, exists_. rewrite Hm.
  rewrite (bool_decide_eq_false_2 (is_Some (@None File))) by (by intros [? ?]).
  reflexivity.
Qed.
End MoreExtraction.

Lemma extract_in_order_witness :
  Shell.extract (H := layeredExternals) layered_fs (lit "/work") (lit "/home/.elm")
    false
  = Ok [{| find := lit "X"; replace := lit "R" |};
        {| find := lit "var $acme$widgets$foo = 1;";
           replace := lit "var $acme$widgets$foo = 2;" |};
        {| find := lit "E"; replace := lit "F" |};
        {| find := lit "G"; replace := lit "H" |}].
Proof.
  apply (extract_in_order (H := layeredExternals) layered_fs (lit "/work")
           (lit "/home/.elm") (file_at 10 layered_manifest_text) layered_manifest
           (lit "0.19.1")
           {| direct := Some [(lit "acme/widgets", lit "1.0.0");
                              (lit "acme/extras", lit "3.0.0")];
              indirect := Some [(lit "acme/gadgets", lit "2.0.0")] |}
           [{| find := lit "X"; replace := lit "R" |}]
           [[{| find := lit "var $acme$widgets$foo = 1;";
                replace := lit "var $acme$widgets$foo = 2;" |}];
            [{| find := lit "E"; replace := lit "F" |}]]
           [[{| find := lit "G"; replace := lit "H" |}]]).
  - reflexivity.
  - reflexivity.
  - reflexivity.
  - reflexivity.
  - reflexivity.
  - reflexivity.
  - reflexivity.
Defined.


(** [extract_first_failure] on a manifest with a bare identifier. *)
Lemma extract_first_failure_witness :
  Shell.extract (H := bareExternals) bare_fs (lit "/work") (lit "/home/.elm") false
  = Err PathNotString.
Proof.
  apply (extract_first_failure (H := bareExternals) bare_fs (lit "/work")
           (lit "/home/.elm")
           {| Shell.m_name := None; Shell.m_version := lit "0.19.1";
              Shell.m_dependencies := [(lit "acme/widgets", lit "1.0.0");
                                       (lit "widgets", lit "1.0.0")] |}
           [] [(lit "acme/widgets", lit "1.0.0")] (lit "widgets") (lit "1.0.0") []
           [[{| find := lit "var $acme$widgets$foo = 1;";
                replace := lit "var $acme$widgets$foo = 2;" |}]]
           PathNotString).
  - reflexivity.
  - reflexivity.
  - reflexivity.
  - reflexivity.
  - reflexivity.
Defined.

(** ** More on the transformation cache *)

Lemma needsCacheRefresh_missing_source fs projectRoot artifact :
  fs !! path_join [projectRoot; ELM_JSON] = None
  \/ fs !! path_join [projectRoot; README_MD] = None ->
  needsCacheRefresh fs projectRoot artifact = true.
Proof.
  intros Hmissing. rewrite needsCacheRefresh_stale. unfold stale.
  rewrite Time_gt_max. unfold sourceTime.
  destruct Hmissing as [-> | ->]; cbn; by rewrite ?orb_true_r.
Qed.

Lemma needsCacheRefresh_written fs now projectRoot artifact data t1 t2 :
  path_join [projectRoot; ELM_JSON] <> artifact ->
  path_join [projectRoot; README_MD] <> artifact ->
  sourceTime fs (path_join [projectRoot; ELM_JSON]) = Finite t1 ->
  sourceTime fs (path_join [projectRoot; README_MD]) = Finite t2 ->
  (t1 <= now)%Z -> (t2 <= now)%Z ->
  needsCacheRefresh (writeTextFile fs now artifact data) projectRoot artifact = false.
Proof.
  intros Hne1 Hne2 Ht1 Ht2 Hle1 Hle2.
  rewrite needsCacheRefresh_stale. unfold stale, sourceTime, artifactTime in *.
  unfold writeTextFile.
  rewrite lookup_insert_eq, !lookup_insert_ne by done.
  rewrite bool_decide_eq_false_2 by done.
  destruct (fs !! path_join [projectRoot; ELM_JSON] ≫= mtime) as [m1|]; [|done].
  destruct (fs !! path_join [projectRoot; README_MD] ≫= mtime) as [m2|]; [|done].
  injection Ht1 as ->. injection Ht2 as ->. cbn.
  apply Z.ltb_ge. lia.
Qed.

Section MoreCache.
Context `{Externals}.

(** X22.  Without the manifest of the project the cache is never used: whatever
    is persisted and whether or not a refresh is asked for, the call fails on
    the missing manifest and writes nothing. *)
Theorem extractWithCache_without_manifest fs now projectRoot elmHome test refresh :
  fs !! path_join [projectRoot; ELM_JSON] = None ->
  Shell.extractWithCache fs now projectRoot elmHome test refresh =
  (Err (ManifestNotFound (path_join [projectRoot; ELM_JSON])), fs).
Proof.
  intros Hm. unfold Shell.extractWithCache.
  rewrite needsCacheRefresh_missing_source by (by left).
  rewrite Shell_extract_without_manifest by done.
  by destruct refresh.
Qed.

(** X23.  A project without [README.md] extracts its rule set on every call, in
    either revision: the call is the same as one with a forced refresh. *)
Theorem extractWithCache_without_readme fs now projectRoot elmHome test refresh :
  fs !! path_join [projectRoot; README_MD] = None ->
  Shell.extractWithCache fs now projectRoot elmHome test refresh =
    Shell.extractWithCache fs now projectRoot elmHome test true
  /\ Xelm.extractWithCache fs now projectRoot elmHome test refresh =
     Xelm.extractWithCache fs now projectRoot elmHome test true.
Proof.
  intros Hm. unfold Shell.extractWithCache, Xelm.extractWithCache.
  rewrite !needsCacheRefresh_missing_source by (by right).
  by destruct refresh.
Qed.

(** X24.  After a call that returned a rule set, a call without a forced refresh
    returns the same rule set and writes nothing, provided the two sources
    have modification times that are not later than the time of the first
    call and the rule set survives the round trip through JSON. *)
Theorem extractWithCache_hit fs now later projectRoot elmHome test refresh
    transformations fs1 t1 t2 :
  Shell.extractWithCache fs now projectRoot elmHome test refresh =
    (Ok transformations, fs1) ->
  sourceTime fs (path_join [projectRoot; ELM_JSON]) = Finite t1 ->
  sourceTime fs (path_join [projectRoot; README_MD]) = Finite t2 ->
  (t1 <= now)%Z -> (t2 <= now)%Z ->
  JSON_parse_Transforms (JSON_stringify transformations) = Ok transformations ->
  Shell.extractWithCache fs1 later projectRoot elmHome test false =
    (Ok transformations, fs1).
Proof.
  intros Hfirst Ht1 Ht2 Hle1 Hle2 Hjson.
  unfold Shell.extractWithCache in *.
  destruct (negb (if refresh then refresh else _)) eqn:Hchanged.
  - injection Hfirst as Hread <-.
    destruct refresh; [done|]. apply negb_true_iff in Hchanged.
    rewrite Hchanged. cbn [negb]. f_equal. exact Hread.
  - destruct (Shell.extract fs projectRoot elmHome test) as [ts|e]; [|done].
    injection Hfirst as -> <-.
    rewrite (needsCacheRefresh_written _ _ _ _ _ t1 t2); try done.
    + cbn [negb]. unfold readTextFile, writeTextFile.
      rewrite lookup_insert_eq. cbn. by rewrite Hjson.
    + apply (artifact_not_source [projectRoot] _ projectRoot false). by left.
    + apply (artifact_not_source [projectRoot] _ projectRoot false). by right.
Qed.

(** X25.  A call that finds the cache fresh depends on three files only: the
    artifact and the two sources of the project.  In particular, in test mode
    it does not depend on the documentation two directories up, from which
    the rules of that mode are extracted. *)
Theorem extractWithCache_hit_reads fs fs' now projectRoot elmHome test :
  let artifact := path_join [projectRoot; ELM_STUFF; lit "transformations.json"] in
  fs' !! artifact = fs !! artifact ->
  fs' !! path_join [projectRoot; ELM_JSON] = fs !! path_join [projectRoot; ELM_JSON] ->
  fs' !! path_join [projectRoot; README_MD] = fs !! path_join [projectRoot; README_MD] ->
  needsCacheRefresh fs projectRoot artifact = false ->
  Shell.extractWithCache fs' now projectRoot elmHome test false =
  (readTextFile fs artifact ≫= JSON_parse_Transforms, fs').
Proof.
  intros artifact Ha Hj Hr Hfresh. unfold Shell.extractWithCache. fold artifact.
  assert (Hsame : needsCacheRefresh fs' projectRoot artifact =
                  needsCacheRefresh fs projectRoot artifact).
  { unfold needsCacheRefresh, exists_, isModifiedAfter, getModificationTime.
    by rewrite Ha, Hj, Hr. }
  rewrite Hsame, Hfresh. cbn [negb]. unfold readTextFile. by rewrite Ha.
Qed.

(** X26.  [extractWithCache] changes no file other than the artifact; a call that
    fails changes no file at all, and a call that changes the artifact has
    returned the rule set whose JSON text it stored, with the time of the
    call. *)
Theorem extractWithCache_writes fs now projectRoot elmHome test refresh r fs' :
  let artifact := path_join [projectRoot; ELM_STUFF; lit "transformations.json"] in
  Shell.extractWithCache fs now projectRoot elmHome test refresh = (r, fs') ->
  (forall p, p <> artifact -> fs' !! p = fs !! p)
  /\ (forall e, r = Err e -> fs' = fs)
  /\ (fs' <> fs ->
      exists transformations,
        r = Ok transformations
        /\ fs' !! artifact = Some {| content := JSON_stringify transformations;
                                     mtime := Some now |}).
Proof.
  intros artifact. unfold Shell.extractWithCache. fold artifact.
  destruct (negb (if refresh then refresh else _)).
  - intros [= <- <-]. done.
  - destruct (Shell.extract fs projectRoot elmHome test) as [ts|e];
      intros [= <- <-]; [|done].
    split; [|split; [done|]].
    + intros p Hp. unfold writeTextFile. by rewrite lookup_insert_ne.
    + intros _. exists ts. split; [done|].
      unfold writeTextFile. by rewrite lookup_insert_eq.
Qed.
End MoreCache.

Lemma extractWithCache_without_manifest_witness :
  Shell.extractWithCache (H := ruleExternals) indented_fs 20 (lit "/work")
    (lit "/home/.elm") false false
  = (Err (ManifestNotFound (path_join [lit "/work"; ELM_JSON])), indented_fs).
Proof.
  apply (extractWithCache_without_manifest (H := ruleExternals) indented_fs 20
           (lit "/work") (lit "/home/.elm") false false).
  reflexivity.
Defined.

Lemma extractWithCache_without_readme_witness :
  Shell.extractWithCache (H := exampleExternals) app_fs 20 (lit "/work")
    (lit "/home/.elm") false false =
    Shell.extractWithCache (H := exampleExternals) app_fs 20 (lit "/work")
      (lit "/home/.elm") false true
  /\ Xelm.extractWithCache (H := exampleExternals) app_fs 20 (lit "/work")
       (lit "/home/.elm") false false =
     Xelm.extractWithCache (H := exampleExternals) app_fs 20 (lit "/work")
       (lit "/home/.elm") false true.
Proof.
  apply (extractWithCache_without_readme (H := exampleExternals) app_fs 20
           (lit "/work") (lit "/home/.elm") false false).
  reflexivity.
Defined.

Lemma extractWithCache_hit_witness :
  Shell.extractWithCache (H := persistingExternals)
    (writeTextFile rule_fs 20 (lit "/work/elm-stuff/transformations.json")
       persisted_text)
    30 (lit "/work") (lit "/home/.elm") false false
  = (Ok persisted_rules,
     writeTextFile rule_fs 20 (lit "/work/elm-stuff/transformations.json")
       persisted_text).
Proof.
  apply (extractWithCache_hit (H := persistingExternals) rule_fs 20 30
           (lit "/work") (lit "/home/.elm") false false persisted_rules
           (writeTextFile rule_fs 20 (lit "/work/elm-stuff/transformations.json")
              persisted_text)
           10 7).
  - reflexivity.
  - reflexivity.
  - reflexivity.
  - lia.
  - lia.
  - reflexivity.
Defined.

Lemma extractWithCache_hit_reads_witness :
  Shell.extractWithCache (H := ruleExternals) parent_fs 60 (lit "/work")
    (lit "/home/.elm") true false
  = (readTextFile (cached_fs 50)
       (path_join [lit "/work"; ELM_STUFF; lit "transformations.json"])
       ≫= JSON_parse_Transforms (Externals := ruleExternals),
     parent_fs).
Proof.
  apply (extractWithCache_hit_reads (H := ruleExternals) (cached_fs 50) parent_fs
           60 (lit "/work") (lit "/home/.elm") true).
  - reflexivity.
  - reflexivity.
  - reflexivity.
  - reflexivity.
Defined.

Lemma extractWithCache_writes_witness :
  let artifact := path_join [lit "/work"; ELM_STUFF; lit "transformations.json"] in
  (forall p, p <> artifact ->
     writeTextFile rule_fs 20 artifact persisted_text !! p = rule_fs !! p)
  /\ (forall e, Ok persisted_rules = Err e ->
        writeTextFile rule_fs 20 artifact persisted_text = rule_fs)
  /\ (writeTextFile rule_fs 20 artifact persisted_text <> rule_fs ->
      exists transformations,
        Ok persisted_rules = Ok transformations
        /\ writeTextFile rule_fs 20 artifact persisted_text !! artifact =
           Some {| content := JSON_stringify (Externals := persistingExternals)
                                transformations;
                   mtime := Some 20%Z |}).
Proof.
  apply (extractWithCache_writes (H := persistingExternals) rule_fs 20
           (lit "/work") (lit "/home/.elm") false false (Ok persisted_rules)
           (writeTextFile rule_fs 20
              (path_join [lit "/work"; ELM_STUFF; lit "transformations.json"])
              persisted_text)).
  reflexivity.
Defined.

(** ** The guard of [postprocess] and the name of the tested package *)

(** X27.  The test [transformations.length > 0] of [postprocess] saves work only:
    [transform] with no rule returns the source as it is. *)
Theorem postprocess_guard content config :
  Shell.postprocess_transform content config = Shell.transform content config.
Proof.
  unfold Shell.postprocess_transform.
  destruct (transformations config) as [|t ts] eqn:Hts; [|done].
  cbn [length Nat.ltb Nat.leb]. symmetry. apply transform_no_occurrence.
  rewrite Hts. by intros t [].
Qed.

Lemma getNamespace_no_slash name :
  ~ In "/"%char name -> Shell.getNamespace name = Err NoProjectName.
Proof.
  intros Hno. destruct (split_cases "/" name) as [[_ Hs]|[Hin _]]; [|done].
  unfold Shell.getNamespace. by rewrite split_escapeVar, Hs.
Qed.

Lemma includes_char c s : includes [c] s = false -> ~ In c s.
Proof.
  induction s as [|c' s IH]; cbn [includes startsWith]; [by intros _ []|].
  rewrite andb_true_r. intros Hinc. apply orb_false_iff in Hinc as [Hc Hinc].
  intros [->|Hin]; [|by apply IH].
  by rewrite (proj2 (Ascii.eqb_eq c c) eq_refl) in Hc.
Qed.

(** X28.  In test mode the name of the tested package is turned into a matcher
    only when the documentation is there: with a name that has no slash the
    scan of an existing documentation fails before it looks at a token, and
    a missing documentation still gives the empty rule set. *)
Theorem extractReadme_name_without_slash `{Externals} fs filePath name :
  name <> [] ->
  includes (lit "/") name = false ->
  Shell.extractReadme fs filePath (Some name) =
  if exists_ fs filePath then Err NoProjectName else Ok [].
Proof.
  intros Hname Hno. unfold Shell.extractReadme.
  destruct (exists_ fs filePath); [|done]. cbn [negb].
  destruct name as [|c name]; [done|]. cbn [Shell.namespaceRegExp].
  by rewrite getNamespace_no_slash by (by apply includes_char).
Qed.

Lemma extractReadme_name_without_slash_witness :
  Shell.extractReadme (H := exampleExternals) indented_fs (lit "/work/README.md")
    (Some (lit "widgets"))
  = if exists_ indented_fs (lit "/work/README.md") then Err NoProjectName else Ok [].
Proof.
  apply (extractReadme_name_without_slash (H := exampleExternals) indented_fs
           (lit "/work/README.md") (lit "widgets")).
  - discriminate.
  - reflexivity.
Defined.
